(** * CORTEX node firmware: sampling, encoding and notification engine

    Shallow embedding of the Arduino sketch (setup / loop / readSensors /
    updateAndNotify / BLE event handlers) together with the packed
    [CortexPacket] structure it writes to the BLE characteristic.

    Conventions of the embedding:
    - [uint8_t], [uint16_t], [uint32_t] and [unsigned long] (32 bits on the
      nRF52840 of the Nano 33 BLE) are [Z] with the wrap-around written out;
    - [float] is IEEE-754 binary32, given by the Standard Library's
      [spec_float] operations at precision 24 and [emax] 128;
    - the global variables of the sketch form the record [State]; every call
      into a vendor library (Serial, BLE, GPIO) is appended to [trace];
    - values returned by the hardware (clock, sensor drivers, BLE events) are
      inputs of the functions that consume them. *)

From Stdlib Require Import ZArith String List Bool Lia.
From Stdlib Require Import SpecFloat.
From Stdlib Require Import Strings.Byte.
Import ListNotations.
Open Scope Z_scope.

(** ** Fixed-width unsigned integers *)

Definition wrap8 (z : Z) : Z := z mod 2 ^ 8.
Definition wrap16 (z : Z) : Z := z mod 2 ^ 16.
Definition wrap32 (z : Z) : Z := z mod 2 ^ 32.

(** ** IEEE-754 single precision *)

Module F32.

Definition float : Type := spec_float.

Definition prec : Z := 24.
Definition emax : Z := 128.

Definition add : float -> float -> float := SFadd prec emax.
Definition mul : float -> float -> float := SFmul prec emax.
Definition sqrt : float -> float := SFsqrt prec emax.

(** The [NAN] macro of <math.h> (a quiet NaN). *)
Definition NAN : float := S754_nan.

(** Value of zero-initialised storage: all bits clear, i.e. [+0.0f]. *)
Definition zero : float := S754_zero false.

Definition isnan (f : float) : bool :=
  match f with
  | S754_nan => true
  | _ => false
  end.

(** Conversion [int -> float] (round to nearest even), as performed by the
    assignment [packet.lux = a]. *)
Definition of_int (z : Z) : float := binary_normalize prec emax z 0 false.

(** Bit pattern of a binary32 value: sign (1) | biased exponent (8) |
    fraction (23).  For a finite [m * 2^e] in canonical form the exponent
    and fraction fields together are [(e + 149) * 2^23 + m]. *)
Definition sign_bit (s : bool) : Z := if s then 2 ^ 31 else 0.

Definition bits (f : float) : Z :=
  match f with
  | S754_zero s => sign_bit s
  | S754_infinity s => sign_bit s + 255 * 2 ^ 23
  | S754_nan => 255 * 2 ^ 23 + 2 ^ 22
  | S754_finite s m e => sign_bit s + ((e + 149) * 2 ^ 23 + Zpos m)
  end.

End F32.

Abbreviation float := F32.float.
Abbreviation NAN := F32.NAN.

(** ** Bytes and little-endian encoding (the target is little-endian) *)

Definition byte_of_Z (z : Z) : byte :=
  match Byte.of_N (Z.to_N (z mod 256)) with
  | Some b => b
  | None => x00
  end.

Definition Z_of_byte (b : byte) : Z := Z.of_N (Byte.to_N b).

Fixpoint le_bytes (n : nat) (z : Z) : list byte :=
  match n with
  | O => []
  | S n' => byte_of_Z (z mod 256) :: le_bytes n' (z / 256)
  end.

Fixpoint le_value (bs : list byte) : Z :=
  match bs with
  | [] => 0
  | b :: rest => Z_of_byte b + 256 * le_value rest
  end.

(** ** Build-time configuration (config.h) *)

Definition NODE_ID : Z := 1.
Definition LOCAL_NAME : string := "CortexNode-Vanity".

(** ** The packet structure

    [typedef struct __attribute__((packed)) { ... } CortexPacket;] *)

Record CortexPacket : Type := mkPacket {
  magic        : byte * byte * byte * byte;  (* char magic[4] *)
  node_id      : Z;                          (* uint8_t  *)
  reserved     : Z;                          (* uint8_t  *)
  seq          : Z;                          (* uint16_t *)
  t_ms         : Z;                          (* uint32_t *)
  temp_c       : float;
  rh_pct       : float;
  pressure_hpa : float;
  lux          : float;
  accel_g      : float;
  sound_dbfs   : float
}.

(** [sizeof(CortexPacket)]: the structure is packed, so its size is the sum
    of the sizes of its members, in declaration order. *)
Definition sizeof_CortexPacket : nat :=
  (4 * 1 + 1 + 1 + 2 + 4 + 4 + 4 + 4 + 4 + 4 + 4)%nat.

(** Object representation of a packet: members in declaration order, no
    padding between them, multi-byte members least significant byte first. *)
Definition magic_bytes (m : byte * byte * byte * byte) : list byte :=
  let '(m0, m1, m2, m3) := m in [m0; m1; m2; m3].

Definition packet_bytes (p : CortexPacket) : list byte :=
  magic_bytes (magic p)
    ++ le_bytes 1 (node_id p)
    ++ le_bytes 1 (reserved p)
    ++ le_bytes 2 (seq p)
    ++ le_bytes 4 (t_ms p)
    ++ le_bytes 4 (F32.bits (temp_c p))
    ++ le_bytes 4 (F32.bits (rh_pct p))
    ++ le_bytes 4 (F32.bits (pressure_hpa p))
    ++ le_bytes 4 (F32.bits (lux p))
    ++ le_bytes 4 (F32.bits (accel_g p))
    ++ le_bytes 4 (F32.bits (sound_dbfs p)).

(** Field updates ([packet.f = v]). *)
Definition with_magic (v : byte * byte * byte * byte) (p : CortexPacket) :=
  mkPacket v (node_id p) (reserved p) (seq p) (t_ms p) (temp_c p) (rh_pct p)
           (pressure_hpa p) (lux p) (accel_g p) (sound_dbfs p).
Definition with_node_id (v : Z) (p : CortexPacket) :=
  mkPacket (magic p) v (reserved p) (seq p) (t_ms p) (temp_c p) (rh_pct p)
           (pressure_hpa p) (lux p) (accel_g p) (sound_dbfs p).
Definition with_reserved (v : Z) (p : CortexPacket) :=
  mkPacket (magic p) (node_id p) v (seq p) (t_ms p) (temp_c p) (rh_pct p)
           (pressure_hpa p) (lux p) (accel_g p) (sound_dbfs p).
Definition with_seq (v : Z) (p : CortexPacket) :=
  mkPacket (magic p) (node_id p) (reserved p) v (t_ms p) (temp_c p) (rh_pct p)
           (pressure_hpa p) (lux p) (accel_g p) (sound_dbfs p).
Definition with_t_ms (v : Z) (p : CortexPacket) :=
  mkPacket (magic p) (node_id p) (reserved p) (seq p) v (temp_c p) (rh_pct p)
           (pressure_hpa p) (lux p) (accel_g p) (sound_dbfs p).
Definition with_temp_c (v : float) (p : CortexPacket) :=
  mkPacket (magic p) (node_id p) (reserved p) (seq p) (t_ms p) v (rh_pct p)
           (pressure_hpa p) (lux p) (accel_g p) (sound_dbfs p).
Definition with_rh_pct (v : float) (p : CortexPacket) :=
  mkPacket (magic p) (node_id p) (reserved p) (seq p) (t_ms p) (temp_c p) v
           (pressure_hpa p) (lux p) (accel_g p) (sound_dbfs p).
Definition with_pressure_hpa (v : float) (p : CortexPacket) :=
  mkPacket (magic p) (node_id p) (reserved p) (seq p) (t_ms p) (temp_c p)
           (rh_pct p) v (lux p) (accel_g p) (sound_dbfs p).
Definition with_lux (v : float) (p : CortexPacket) :=
  mkPacket (magic p) (node_id p) (reserved p) (seq p) (t_ms p) (temp_c p)
           (rh_pct p) (pressure_hpa p) v (accel_g p) (sound_dbfs p).
Definition with_accel_g (v : float) (p : CortexPacket) :=
  mkPacket (magic p) (node_id p) (reserved p) (seq p) (t_ms p) (temp_c p)
           (rh_pct p) (pressure_hpa p) (lux p) v (sound_dbfs p).
Definition with_sound_dbfs (v : float) (p : CortexPacket) :=
  mkPacket (magic p) (node_id p) (reserved p) (seq p) (t_ms p) (temp_c p)
           (rh_pct p) (pressure_hpa p) (lux p) (accel_g p) v.

(** ** Calls into the vendor libraries, in program order *)

Inductive Level : Type := LOW | HIGH.

Inductive BleEventKind : Type := BLEConnected | BLEDisconnected.

Inductive Effect : Type :=
| SerialBegin (baud : Z)
| SerialPrint (s : string)
| SerialPrintln (s : string)
| SerialPrintlnInt (n : Z)
| BleSetLocalName (name : string)
| BleSetAdvertisedService
| ServiceAddCharacteristic (valueSize : nat)
| BleAddService
| CharacteristicWriteValue (value : list byte)
| BleSetEventHandler (k : BleEventKind)
| BleAdvertise
| PinModeOutput
| DigitalWrite (v : Level).

(** What the sketch can observe of the BLE stack: whether a central is
    attached ([BLE.connected()]) and whether the device is discoverable. *)
Record BLEStack : Type := mkBLE {
  connected   : bool;
  advertising : bool
}.

(** ** Global variables of the sketch *)

Record State : Type := mkState {
  packet         : CortexPacket;
  hts_ok         : bool;
  baro_ok        : bool;
  apds_ok        : bool;
  lsm_ok         : bool;
  lastSampleTime : Z;   (* unsigned long *)
  lastNotifyTime : Z;   (* unsigned long *)
  ble            : BLEStack;
  trace          : list Effect
}.

Definition sampleInterval : Z := 100.
Definition notifyInterval : Z := 200.

Definition set_packet (f : CortexPacket -> CortexPacket) (st : State) : State :=
  mkState (f (packet st)) (hts_ok st) (baro_ok st) (apds_ok st) (lsm_ok st)
          (lastSampleTime st) (lastNotifyTime st) (ble st) (trace st).
Definition set_hts_ok (v : bool) (st : State) : State :=
  mkState (packet st) v (baro_ok st) (apds_ok st) (lsm_ok st)
          (lastSampleTime st) (lastNotifyTime st) (ble st) (trace st).
Definition set_baro_ok (v : bool) (st : State) : State :=
  mkState (packet st) (hts_ok st) v (apds_ok st) (lsm_ok st)
          (lastSampleTime st) (lastNotifyTime st) (ble st) (trace st).
Definition set_apds_ok (v : bool) (st : State) : State :=
  mkState (packet st) (hts_ok st) (baro_ok st) v (lsm_ok st)
          (lastSampleTime st) (lastNotifyTime st) (ble st) (trace st).
Definition set_lsm_ok (v : bool) (st : State) : State :=
  mkState (packet st) (hts_ok st) (baro_ok st) (apds_ok st) v
          (lastSampleTime st) (lastNotifyTime st) (ble st) (trace st).
Definition set_lastSampleTime (v : Z) (st : State) : State :=
  mkState (packet st) (hts_ok st) (baro_ok st) (apds_ok st) (lsm_ok st)
          v (lastNotifyTime st) (ble st) (trace st).
Definition set_lastNotifyTime (v : Z) (st : State) : State :=
  mkState (packet st) (hts_ok st) (baro_ok st) (apds_ok st) (lsm_ok st)
          (lastSampleTime st) v (ble st) (trace st).
Definition set_ble (v : BLEStack) (st : State) : State :=
  mkState (packet st) (hts_ok st) (baro_ok st) (apds_ok st) (lsm_ok st)
          (lastSampleTime st) (lastNotifyTime st) v (trace st).
Definition emit (e : Effect) (st : State) : State :=
  mkState (packet st) (hts_ok st) (baro_ok st) (apds_ok st) (lsm_ok st)
          (lastSampleTime st) (lastNotifyTime st) (ble st) (trace st ++ [e]).

(** State at power-on: objects with static storage duration are
    zero-initialised unless they have an initialiser. *)
Definition zero_packet : CortexPacket :=
  mkPacket (x00, x00, x00, x00) 0 0 0 0
           F32.zero F32.zero F32.zero F32.zero F32.zero F32.zero.

Definition power_on : State :=
  mkState zero_packet false false false false 0 0 (mkBLE false false) [].

(** ** Inputs supplied by the hardware *)

(** Results of the driver [begin()] calls made during [setup]. *)
Record InitResults : Type := mkInit {
  hts_begin  : bool;
  baro_begin : bool;
  apds_begin : bool;
  imu_begin  : bool;
  ble_begin  : bool
}.

(** What the sensor drivers would return during one call of [readSensors]. *)
Record Readings : Type := mkReadings {
  hts_readTemperature       : float;
  hts_readHumidity          : float;
  baro_readPressure         : float;
  apds_colorAvailable       : bool;
  apds_readColor            : Z * Z * Z * Z;     (* r, g, b, a *)
  imu_accelerationAvailable : bool;
  imu_readAcceleration      : float * float * float   (* ax, ay, az *)
}.

(** Events handed over by the stack during [BLE.poll()], with the address of
    the central. *)
Inductive BleEvent : Type :=
| EvConnected (central : string)
| EvDisconnected (central : string).

(** Everything one pass through [loop] reads from the outside world. *)
Record LoopInput : Type := mkLoopInput {
  millis_loop   : Z;              (* millis() at the top of loop *)
  poll_events   : list BleEvent;  (* events dispatched by BLE.poll() *)
  readings      : Readings;       (* driver answers, if sampling runs *)
  millis_notify : Z               (* millis() inside updateAndNotify *)
}.

(** ** The sketch *)

(** [cortexCharacteristic.writeValue(&packet, sizeof(packet))]: the first
    [sizeof(packet)] bytes of the object are handed to the stack. *)
Definition writeValue (st : State) : State :=
  emit (CharacteristicWriteValue
          (firstn sizeof_CortexPacket (packet_bytes (packet st)))) st.

(** [BLE.advertise()]: the device becomes discoverable. *)
Definition BLE_advertise (st : State) : State :=
  emit BleAdvertise (set_ble (mkBLE (connected (ble st)) true) st).

Definition setupSensors (hw : InitResults) (st : State) : State :=
  let st := emit (SerialPrintln "Initializing sensors...") st in
  let st :=
    if hts_begin hw
    then set_hts_ok true (emit (SerialPrintln "HTS221 (Temp/Humidity) OK") st)
    else emit (SerialPrintln "Failed to initialize HTS221!") st in
  let st :=
    if baro_begin hw
    then set_baro_ok true (emit (SerialPrintln "LPS22HB (Pressure) OK") st)
    else emit (SerialPrintln "Failed to initialize LPS22HB!") st in
  let st :=
    if apds_begin hw
    then set_apds_ok true (emit (SerialPrintln "APDS9960 (Light/Prox) OK") st)
    else emit (SerialPrintln "Failed to initialize APDS9960!") st in
  let st :=
    if imu_begin hw
    then set_lsm_ok true (emit (SerialPrintln "LSM9DS1 (IMU) OK") st)
    else emit (SerialPrintln "Failed to initialize LSM9DS1!") st in
  emit (SerialPrintln "Sensor initialization complete.") st.

(** [sqrt(ax*ax + ay*ay + az*az)] on [float] operands.  Whether the square
    root is taken in single precision or in double precision and then
    rounded on assignment, the stored value is the correctly rounded single
    precision root. *)
Definition accel_magnitude (a : float * float * float) : float :=
  let '(ax, ay, az) := a in
  F32.sqrt (F32.add (F32.add (F32.mul ax ax) (F32.mul ay ay)) (F32.mul az az)).

Definition readSensors (r : Readings) (st : State) : State :=
  (* Temperature and Humidity *)
  let st := set_packet
              (with_temp_c (if hts_ok st then hts_readTemperature r else NAN))
              st in
  let st := set_packet
              (with_rh_pct (if hts_ok st then hts_readHumidity r else NAN))
              st in
  (* Pressure *)
  let st := set_packet
              (with_pressure_hpa
                 (if baro_ok st then baro_readPressure r else NAN))
              st in
  (* Light *)
  let st :=
    if apds_ok st && apds_colorAvailable r
    then let '(_, _, _, a) := apds_readColor r in
         set_packet (with_lux (F32.of_int a)) st
    else set_packet (with_lux NAN) st in
  (* Accelerometer *)
  let st :=
    if lsm_ok st && imu_accelerationAvailable r
    then set_packet (with_accel_g (accel_magnitude (imu_readAcceleration r))) st
    else set_packet (with_accel_g NAN) st in
  (* Sound - placeholder *)
  set_packet (with_sound_dbfs NAN) st.

Definition updateAndNotify (millis : Z) (st : State) : State :=
  let st := set_packet (with_t_ms (wrap32 millis)) st in
  let st := set_packet (fun p => with_seq (wrap16 (seq p + 1)) p) st in
  writeValue st.

Definition onBLEConnected (central : string) (st : State) : State :=
  let st := emit (SerialPrint "Connected to central: ") st in
  let st := emit (SerialPrintln central) st in
  emit (DigitalWrite LOW) st.

Definition onBLEDisconnected (central : string) (st : State) : State :=
  let st := emit (SerialPrint "Disconnected from central: ") st in
  let st := emit (SerialPrintln central) st in
  let st := emit (DigitalWrite HIGH) st in
  let st := BLE_advertise st in
  emit (SerialPrintln "Advertising restarted.") st.

(** The stack updates its link state and then runs the registered handler
    to completion.  Accepting a connection ends advertising; losing it leaves
    the device neither connected nor discoverable until [BLE.advertise()]
    is called again. *)
Definition dispatch (e : BleEvent) (st : State) : State :=
  match e with
  | EvConnected central =>
      onBLEConnected central (set_ble (mkBLE true false) st)
  | EvDisconnected central =>
      onBLEDisconnected central
        (set_ble (mkBLE false (advertising (ble st))) st)
  end.

Definition BLE_poll (evs : list BleEvent) (st : State) : State :=
  fold_left (fun s e => dispatch e s) evs st.

(** Outcome of [setup]: either the sketch goes on to [loop], or it is stuck
    in [while (1);] after [BLE.begin()] failed. *)
Inductive Boot : Type :=
| Running (st : State)
| Halted (st : State).

Definition setup (hw : InitResults) (st : State) : Boot :=
  let st := emit (SerialBegin 115200) st in
  let st := emit (SerialPrintln "CORTEX Node Booting...") st in
  let st := emit (SerialPrint "Node ID: ") st in
  let st := emit (SerialPrintlnInt NODE_ID) st in
  let st := emit (SerialPrint "Local Name: ") st in
  let st := emit (SerialPrintln LOCAL_NAME) st in
  let st := setupSensors hw st in
  (* Initialize packet structure *)
  let st := set_packet (with_magic ("C", "T", "X", "1")%byte) st in
  let st := set_packet (with_node_id (wrap8 NODE_ID)) st in
  let st := set_packet (with_reserved 0) st in
  let st := set_packet (with_seq 0) st in
  (* Setup BLE *)
  if negb (ble_begin hw)
  then Halted (emit (SerialPrintln "Starting BLE failed!") st)
  else
    let st := emit (BleSetLocalName LOCAL_NAME) st in
    let st := emit BleSetAdvertisedService st in
    let st := emit (ServiceAddCharacteristic sizeof_CortexPacket) st in
    let st := emit BleAddService st in
    (* Set initial value *)
    let st := writeValue st in
    (* Assign event handlers *)
    let st := emit (BleSetEventHandler BLEConnected) st in
    let st := emit (BleSetEventHandler BLEDisconnected) st in
    (* Start advertising *)
    let st := BLE_advertise st in
    let st := emit (SerialPrintln "BLE Advertising started.") st in
    let st := emit PinModeOutput st in
    Running (emit (DigitalWrite HIGH) st).

(** The two timer tests of [loop], in unsigned 32-bit arithmetic. *)
Definition sample_due (currentTime : Z) (st : State) : bool :=
  sampleInterval <=? wrap32 (currentTime - lastSampleTime st).

Definition notify_due (currentTime : Z) (st : State) : bool :=
  notifyInterval <=? wrap32 (currentTime - lastNotifyTime st).

Definition loop (i : LoopInput) (st : State) : State :=
  let currentTime := wrap32 (millis_loop i) in
  (* Poll for BLE events *)
  let st := BLE_poll (poll_events i) st in
  (* Sample sensors at 10 Hz *)
  let st :=
    if sample_due currentTime st
    then readSensors (readings i) (set_lastSampleTime currentTime st)
    else st in
  (* Notify central at 5 Hz if connected *)
  if notify_due currentTime st
  then
    let st := set_lastNotifyTime currentTime st in
    if connected (ble st)
    then updateAndNotify (millis_notify i) st
    else st
  else st.

(** The Arduino core calls [loop] forever; a finite prefix of the execution
    is determined by the inputs of its iterations. *)
Definition run (ins : list LoopInput) (st : State) : State :=
  fold_left (fun s i => loop i s) ins st.

(** Power-on followed by [setup]. *)
Definition boot (hw : InitResults) : Boot := setup hw power_on.

(** ** Observations *)

(** Values handed to [cortexCharacteristic.writeValue], oldest first. *)
Fixpoint written_values (tr : list Effect) : list (list byte) :=
  match tr with
  | [] => []
  | CharacteristicWriteValue v :: rest => v :: written_values rest
  | _ :: rest => written_values rest
  end.

Definition written (st : State) : list (list byte) :=
  written_values (trace st).

(** Records written by the iterations [ins] of [loop] started in [st]:
    what [run] adds to the values already written in [st]. *)
Definition transmitted (ins : list LoopInput) (st : State) : list (list byte) :=
  skipn (length (written st)) (written (run ins st)).

(** Number of calls of [BLE.advertise()] so far. *)
Fixpoint advertise_calls (tr : list Effect) : nat :=
  match tr with
  | [] => O
  | BleAdvertise :: rest => S (advertise_calls rest)
  | _ :: rest => advertise_calls rest
  end.

(** Decoding of the header of a received record, by offset. *)
Definition record_magic (bs : list byte) : list byte := firstn 4 bs.
Definition record_node_id (bs : list byte) : Z :=
  le_value (firstn 1 (skipn 4 bs)).
Definition record_reserved (bs : list byte) : Z :=
  le_value (firstn 1 (skipn 5 bs)).
Definition record_seq (bs : list byte) : Z :=
  le_value (firstn 2 (skipn 6 bs)).

(** The six sensor members of the packet. *)
Definition frame (p : CortexPacket) : list float :=
  [temp_c p; rh_pct p; pressure_hpa p; lux p; accel_g p; sound_dbfs p].

(** Lifecycle of the connection as seen through the stack. *)
Inductive Lifecycle : Type := Idle | Advertising | Connected.

Definition lifecycle (st : State) : Lifecycle :=
  if connected (ble st) then Connected
  else if advertising (ble st) then Advertising
  else Idle.

(** Sensor subsystems, their availability flag and the members they feed. *)
Inductive Subsystem : Type := TempHumidity | Pressure | Light | Motion.

Definition available (s : Subsystem) (st : State) : bool :=
  match s with
  | TempHumidity => hts_ok st
  | Pressure => baro_ok st
  | Light => apds_ok st
  | Motion => lsm_ok st
  end.

Definition began (s : Subsystem) (hw : InitResults) : bool :=
  match s with
  | TempHumidity => hts_begin hw
  | Pressure => baro_begin hw
  | Light => apds_begin hw
  | Motion => imu_begin hw
  end.

Definition fields_of (s : Subsystem) (p : CortexPacket) : list float :=
  match s with
  | TempHumidity => [temp_c p; rh_pct p]
  | Pressure => [pressure_hpa p]
  | Light => [lux p]
  | Motion => [accel_g p]
  end.

Definition state_of (b : Boot) : State :=
  match b with
  | Running st => st
  | Halted st => st
  end.

(** ** Conditions of an iteration, state after setup, invariants *)

(** The timer tests of an iteration, read off the state it starts in. *)
Definition sampling_tick (i : LoopInput) (st : State) : bool :=
  sample_due (wrap32 (millis_loop i)) st.

Definition notification_tick (i : LoopInput) (st : State) : bool :=
  notify_due (wrap32 (millis_loop i)) st.

(** Answer of [BLE.connected()] in an iteration: the link state once the
    events of [BLE.poll()] have been dispatched. *)
Definition connected_at_notify (i : LoopInput) (st : State) : bool :=
  connected (ble (BLE_poll (poll_events i) st)).

Definition CTX1 : byte * byte * byte * byte := ("C", "T", "X", "1")%byte.

(** The packet as [setup] leaves it: header assigned, sensor members still
    holding their zero-initialised value. *)
Definition boot_packet : CortexPacket :=
  mkPacket CTX1 NODE_ID 0 0 0
           F32.zero F32.zero F32.zero F32.zero F32.zero F32.zero.

(** Sequence numbering: the write log is never empty, the counter equals the
    index of the last record written, and the record at index [k] carries
    [k] modulo 2^16.  Index 0 is the initial value written by [setup]. *)
Definition seq_inv (st : State) : Prop :=
  exists n : nat,
    length (written st) = S n
    /\ seq (packet st) = wrap16 (Z.of_nat n)
    /\ forall k bs, nth_error (written st) k = Some bs ->
                    record_seq bs = wrap16 (Z.of_nat k).

(** Header members are those assigned by [setup]. *)
Definition header_inv (st : State) : Prop :=
  magic (packet st) = CTX1
  /\ node_id (packet st) = NODE_ID
  /\ reserved (packet st) = 0
  /\ Forall (fun bs => record_magic bs = magic_bytes CTX1
                       /\ record_node_id bs = NODE_ID
                       /\ record_reserved bs = 0) (written st).

(** Every value handed to the characteristic has the size of the packed
    structure. *)
Definition size_inv (st : State) : Prop :=
  Forall (fun bs => length bs = sizeof_CortexPacket) (written st).

(** Once stored, the sentinel of an unavailable subsystem is never replaced. *)
Definition nan_inv (s : Subsystem) (st : State) : Prop :=
  available s st = false
  /\ Forall (fun f => F32.isnan f = true) (fields_of s (packet st)).

(** ** Sample inputs *)

Definition all_ok : InitResults := mkInit true true true true true.
Definition hts_failed : InitResults := mkInit false true true true true.

Definition booted : State := state_of (boot all_ok).
Definition booted_without_hts : State := state_of (boot hts_failed).

Definition central_addr : string := "c0:ff:ee:00:00:01".

(** 21 degrees, 45 %, 1013 hPa, ambient channel 300, one g along z. *)
Definition fresh : Readings :=
  mkReadings (F32.of_int 21) (F32.of_int 45) (F32.of_int 1013)
             true (120, 130, 110, 300)
             true (F32.of_int 0, F32.of_int 0, F32.of_int 1).

(** Same environment, but neither the colour nor the acceleration sample is
    ready yet. *)
Definition not_ready : Readings :=
  mkReadings (F32.of_int 21) (F32.of_int 45) (F32.of_int 1013)
             false (120, 130, 110, 300)
             false (F32.of_int 0, F32.of_int 0, F32.of_int 1).

Definition tick (ms : Z) (evs : list BleEvent) (r : Readings) : LoopInput :=
  mkLoopInput ms evs r ms.

(** A central connects and the notify timer fires in the same iteration. *)
Definition connect_and_notify : LoopInput :=
  tick 200 [EvConnected central_addr] fresh.

Definition three_notifications : list LoopInput :=
  [connect_and_notify; tick 400 [] fresh; tick 600 [] not_ready].

(** ** Further observations: members by offset, indicator, ranges *)

(** The bytes handed over by [writeValue] for a packet [p]. *)
Definition wire_record (p : CortexPacket) : list byte :=
  firstn sizeof_CortexPacket (packet_bytes p).

Definition record_t_ms (bs : list byte) : Z :=
  le_value (firstn 4 (skipn 8 bs)).

(** Bit pattern of the [float] member stored at byte offset [off]. *)
Definition record_f32 (off : nat) (bs : list byte) : Z :=
  le_value (firstn 4 (skipn off bs)).

(** Byte offsets of the members of the packed structure. *)
Definition offset_temp_c : nat := 12.
Definition offset_rh_pct : nat := 16.
Definition offset_pressure_hpa : nat := 20.
Definition offset_lux : nat := 24.
Definition offset_accel_g : nat := 28.
Definition offset_sound_dbfs : nat := 32.

Definition field_offsets (s : Subsystem) : list nat :=
  match s with
  | TempHumidity => [offset_temp_c; offset_rh_pct]
  | Pressure => [offset_pressure_hpa]
  | Light => [offset_lux]
  | Motion => [offset_accel_g]
  end.

(** Level of LED_BUILTIN after the calls of a trace: the last
    [digitalWrite], if any. *)
Fixpoint led_after (cur : option Level) (tr : list Effect) : option Level :=
  match tr with
  | [] => cur
  | DigitalWrite v :: rest => led_after (Some v) rest
  | _ :: rest => led_after cur rest
  end.

Definition led (st : State) : option Level := led_after None (trace st).

(** A float that is neither NaN nor negative: +0, a positive finite value
    or +infinity. *)
Definition nonneg (f : float) : bool :=
  match f with
  | S754_zero false | S754_infinity false | S754_finite false _ _ => true
  | _ => false
  end.

(** The frame has been produced by [readSensors]: the placeholder is NaN and
    so is every member of an unavailable subsystem. *)
Definition sampled (st : State) : Prop :=
  sound_dbfs (packet st) = NAN
  /\ forall s, available s st = false ->
               Forall (fun f => f = NAN) (fields_of s (packet st)).

(** Until the first sampling tick both timers still hold their initial 0. *)
Definition sampled_or_fresh (st : State) : Prop :=
  sampled st \/ (lastSampleTime st = 0 /\ lastNotifyTime st = 0).

(** The node is connected or discoverable, and the LED is on exactly while
    it is not connected. *)
Definition link_inv (st : State) : Prop :=
  lifecycle st <> Idle
  /\ led st = Some (if connected (ble st) then LOW else HIGH).

(** A record that carries the NaN bit pattern in the placeholder member and
    in every member fed by a subsystem that [avail] marks unavailable. *)
Definition nan_on_wire (avail : Subsystem -> bool) (bs : list byte) : Prop :=
  record_f32 offset_sound_dbfs bs = F32.bits NAN
  /\ forall s, avail s = false ->
               Forall (fun off => record_f32 off bs = F32.bits NAN)
                      (field_offsets s).

(** Every value written after the initial one was built from a sampled
    frame. *)
Definition wire_inv (st : State) : Prop :=
  sampled_or_fresh st
  /\ written st <> []
  /\ Forall (nan_on_wire (fun s => available s st)) (tl (written st)).

(** A state whose sample timer is about to cross the 32-bit rollover. *)
Definition near_rollover : State :=
  set_lastSampleTime (2 ^ 32 - 50) (set_lastNotifyTime (2 ^ 32 - 50) booted).

(** ** Basic facts about encoding *)

Lemma Z_of_byte_of_Z (z : Z) : Z_of_byte (byte_of_Z z) = z mod 256.
Proof.
  unfold Z_of_byte, byte_of_Z.
  assert (Hr : 0 <= z mod 256 < 256) by (apply Z.mod_pos_bound; lia).
  destruct (Byte.of_N (Z.to_N (z mod 256))) as [b|] eqn:E.
  - apply Byte.to_of_N in E. rewrite E. lia.
  - apply Byte.of_N_None_iff in E. lia.
Qed.

Lemma le_bytes_length (n : nat) : forall z, length (le_bytes n z) = n.
Proof.
  induction n as [|n IH]; intros z; simpl.
  - reflexivity.
  - now rewrite IH.
Qed.

Lemma le_value_le_bytes (n : nat) :
  forall z, le_value (le_bytes n z) = z mod 256 ^ Z.of_nat n.
Proof.
  induction n as [|n IH]; intros z.
  - simpl. now rewrite Z.mod_1_r.
  - cbn [le_bytes le_value]. rewrite IH, Z_of_byte_of_Z.
    rewrite Nat2Z.inj_succ, Z.pow_succ_r by lia.
    rewrite Z.mod_mod by lia.
    rewrite Z.rem_mul_r; [reflexivity | lia | ].
    apply Z.pow_pos_nonneg; lia.
Qed.

Lemma packet_bytes_length (p : CortexPacket) :
  length (packet_bytes p) = 36%nat.
Proof.
  unfold packet_bytes, magic_bytes.
  destruct (magic p) as [[[m0 m1] m2] m3].
  repeat rewrite length_app. repeat rewrite le_bytes_length. reflexivity.
Qed.

Lemma wire_record_length (p : CortexPacket) :
  length (firstn sizeof_CortexPacket (packet_bytes p)) = 36%nat.
Proof.
  rewrite length_firstn, packet_bytes_length. reflexivity.
Qed.

Lemma wire_record_seq (p : CortexPacket) :
  record_seq (firstn sizeof_CortexPacket (packet_bytes p)) = wrap16 (seq p).
Proof.
  unfold record_seq, packet_bytes, magic_bytes.
  destruct (magic p) as [[[m0 m1] m2] m3].
  change (le_bytes 1 (node_id p)) with [byte_of_Z (node_id p mod 256)].
  change (le_bytes 1 (reserved p)) with [byte_of_Z (reserved p mod 256)].
  change (le_bytes 2 (seq p))
    with [byte_of_Z (seq p mod 256); byte_of_Z ((seq p / 256) mod 256)].
  cbn [app firstn skipn sizeof_CortexPacket Nat.add Nat.mul].
  change [byte_of_Z (seq p mod 256); byte_of_Z ((seq p / 256) mod 256)]
    with (le_bytes 2 (seq p)).
  rewrite le_value_le_bytes. reflexivity.
Qed.

Lemma wire_record_header (p : CortexPacket) :
  let bs := firstn sizeof_CortexPacket (packet_bytes p) in
  record_magic bs = magic_bytes (magic p)
  /\ record_node_id bs = wrap8 (node_id p)
  /\ record_reserved bs = wrap8 (reserved p).
Proof.
  unfold record_magic, record_node_id, record_reserved, packet_bytes,
    magic_bytes.
  destruct (magic p) as [[[m0 m1] m2] m3].
  change (le_bytes 1 (node_id p)) with [byte_of_Z (node_id p mod 256)].
  change (le_bytes 1 (reserved p)) with [byte_of_Z (reserved p mod 256)].
  cbn [app firstn skipn sizeof_CortexPacket Nat.add Nat.mul le_value].
  rewrite !Z_of_byte_of_Z, !Z.mod_mod by lia.
  unfold wrap8. change (2 ^ 8) with 256.
  repeat split; lia.
Qed.

(** ** Frame properties of the operations *)

Lemma written_values_app (a b : list Effect) :
  written_values (a ++ b) = written_values a ++ written_values b.
Proof.
  induction a as [|e a IH]; simpl.
  - reflexivity.
  - destruct e; simpl; now rewrite IH.
Qed.

Lemma advertise_calls_app (a b : list Effect) :
  advertise_calls (a ++ b) = (advertise_calls a + advertise_calls b)%nat.
Proof.
  induction a as [|e a IH]; simpl.
  - reflexivity.
  - destruct e; simpl; now rewrite IH.
Qed.

Lemma written_emit (e : Effect) (st : State) :
  written (emit e st) = written st ++ written_values [e].
Proof. unfold written, emit. simpl. apply written_values_app. Qed.

Lemma written_set_ble (v : BLEStack) (st : State) :
  written (set_ble v st) = written st.
Proof. reflexivity. Qed.

Lemma written_set_packet (f : CortexPacket -> CortexPacket) (st : State) :
  written (set_packet f st) = written st.
Proof. reflexivity. Qed.

Lemma written_set_timers (v : Z) (st : State) :
  written (set_lastSampleTime v st) = written st
  /\ written (set_lastNotifyTime v st) = written st.
Proof. split; reflexivity. Qed.

Create Rewrite HintDb written_log.
#[local] Hint Rewrite written_emit written_set_ble written_set_packet
  app_nil_r : written_log.

Lemma written_writeValue (st : State) :
  written (writeValue st)
  = written st ++ [firstn sizeof_CortexPacket (packet_bytes (packet st))].
Proof. unfold writeValue. now rewrite written_emit. Qed.

(** Reduction of member accesses through the state updates. *)
Ltac state_simpl :=
  cbn [packet hts_ok baro_ok apds_ok lsm_ok lastSampleTime lastNotifyTime
       ble trace set_packet set_hts_ok set_baro_ok set_apds_ok set_lsm_ok
       set_lastSampleTime set_lastNotifyTime set_ble emit].

Ltac readSensors_cases r st :=
  unfold readSensors;
  destruct (apds_readColor r) as [[[cr cg] cb] ca];
  state_simpl;
  destruct (apds_ok st), (apds_colorAvailable r); cbn [andb]; state_simpl;
  destruct (lsm_ok st), (imu_accelerationAvailable r); cbn [andb];
  state_simpl;
  destruct (hts_ok st), (baro_ok st).

Section ReadSensors.
Variables (r : Readings) (st : State).

Lemma readSensors_trace : trace (readSensors r st) = trace st.
Proof.
  readSensors_cases r st; reflexivity.
Qed.

Lemma readSensors_available (s : Subsystem) :
  available s (readSensors r st) = available s st.
Proof.
  destruct s; readSensors_cases r st; reflexivity.
Qed.

Lemma readSensors_timers :
  lastSampleTime (readSensors r st) = lastSampleTime st
  /\ lastNotifyTime (readSensors r st) = lastNotifyTime st.
Proof.
  readSensors_cases r st; split; reflexivity.
Qed.

Lemma readSensors_ble : ble (readSensors r st) = ble st.
Proof.
  readSensors_cases r st; reflexivity.
Qed.

Lemma readSensors_header :
  magic (packet (readSensors r st)) = magic (packet st)
  /\ node_id (packet (readSensors r st)) = node_id (packet st)
  /\ reserved (packet (readSensors r st)) = reserved (packet st)
  /\ seq (packet (readSensors r st)) = seq (packet st)
  /\ t_ms (packet (readSensors r st)) = t_ms (packet st).
Proof.
  readSensors_cases r st; repeat split; reflexivity.
Qed.

(** The frame stored by one call, member by member. *)
Lemma readSensors_frame :
  frame (packet (readSensors r st))
  = [ if hts_ok st then hts_readTemperature r else NAN;
      if hts_ok st then hts_readHumidity r else NAN;
      if baro_ok st then baro_readPressure r else NAN;
      if apds_ok st && apds_colorAvailable r
      then F32.of_int (snd (apds_readColor r)) else NAN;
      if lsm_ok st && imu_accelerationAvailable r
      then accel_magnitude (imu_readAcceleration r) else NAN;
      NAN ].
Proof.
  readSensors_cases r st; reflexivity.
Qed.
Lemma readSensors_polled_flags :
  apds_ok (readSensors r st) = apds_ok st
  /\ lsm_ok (readSensors r st) = lsm_ok st.
Proof.
  split;
    [exact (readSensors_available Light)
    |exact (readSensors_available Motion)].
Qed.

Lemma readSensors_lux :
  lux (packet (readSensors r st))
  = if apds_ok st && apds_colorAvailable r
    then F32.of_int (snd (apds_readColor r)) else NAN.
Proof.
  readSensors_cases r st; reflexivity.
Qed.

Lemma readSensors_accel_g :
  accel_g (packet (readSensors r st))
  = if lsm_ok st && imu_accelerationAvailable r
    then accel_magnitude (imu_readAcceleration r) else NAN.
Proof.
  readSensors_cases r st; reflexivity.
Qed.
End ReadSensors.

Lemma dispatch_frame (e : BleEvent) (st : State) :
  packet (dispatch e st) = packet st
  /\ (forall s, available s (dispatch e st) = available s st)
  /\ lastSampleTime (dispatch e st) = lastSampleTime st
  /\ lastNotifyTime (dispatch e st) = lastNotifyTime st
  /\ written (dispatch e st) = written st.
Proof.
  destruct e as [c|c]; repeat split; try reflexivity;
    try (intros s; destruct s; reflexivity).
  - unfold dispatch, onBLEConnected.
    autorewrite with written_log; simpl; now autorewrite with written_log.
  - unfold dispatch, onBLEDisconnected, BLE_advertise.
    autorewrite with written_log; simpl; now autorewrite with written_log.
Qed.

Lemma BLE_poll_frame (evs : list BleEvent) :
  forall st,
    packet (BLE_poll evs st) = packet st
    /\ (forall s, available s (BLE_poll evs st) = available s st)
    /\ lastSampleTime (BLE_poll evs st) = lastSampleTime st
    /\ lastNotifyTime (BLE_poll evs st) = lastNotifyTime st
    /\ written (BLE_poll evs st) = written st.
Proof.
  induction evs as [|e evs IH]; intros st.
  - repeat split; reflexivity.
  - change (BLE_poll (e :: evs) st) with (BLE_poll evs (dispatch e st)).
    destruct (IH (dispatch e st)) as (Hp & Ha & Hs & Hn & Hw).
    destruct (dispatch_frame e st) as (Hp' & Ha' & Hs' & Hn' & Hw').
    split; [congruence|].
    split; [intros s; now rewrite Ha, Ha'|].
    repeat split; congruence.
Qed.

Lemma updateAndNotify_spec (m : Z) (st : State) :
  let st' := updateAndNotify m st in
  seq (packet st') = wrap16 (seq (packet st) + 1)
  /\ t_ms (packet st') = wrap32 m
  /\ magic (packet st') = magic (packet st)
  /\ node_id (packet st') = node_id (packet st)
  /\ reserved (packet st') = reserved (packet st)
  /\ frame (packet st') = frame (packet st)
  /\ (forall s, available s st' = available s st)
  /\ ble st' = ble st
  /\ written st'
     = written st ++ [firstn sizeof_CortexPacket (packet_bytes (packet st'))].
Proof.
  unfold updateAndNotify. cbv zeta. rewrite written_writeValue.
  do 6 (split; [reflexivity|]).
  split; [intros s; destruct s; reflexivity|].
  split; reflexivity.
Qed.

Lemma run_app (ins1 ins2 : list LoopInput) (st : State) :
  run (ins1 ++ ins2) st = run ins2 (run ins1 st).
Proof. unfold run. apply fold_left_app. Qed.

Lemma run_snoc (ins : list LoopInput) (i : LoopInput) (st : State) :
  run (ins ++ [i]) st = loop i (run ins st).
Proof. now rewrite run_app. Qed.

(** A property of states that [loop] preserves holds along every run. *)
Lemma run_invariant (P : State -> Prop) :
  (forall i st, P st -> P (loop i st)) ->
  forall ins st, P st -> P (run ins st).
Proof.
  intros Hstep ins. induction ins as [|i ins IH]; intros st HP.
  - exact HP.
  - simpl. apply IH. now apply Hstep.
Qed.

(** ** One pass through [loop] *)

Lemma loop_unfold (i : LoopInput) (st : State) :
  loop i st =
  let now := wrap32 (millis_loop i) in
  let s1 := BLE_poll (poll_events i) st in
  let s2 := if sampling_tick i st
            then readSensors (readings i) (set_lastSampleTime now s1)
            else s1 in
  if notification_tick i st
  then if connected_at_notify i st
       then updateAndNotify (millis_notify i) (set_lastNotifyTime now s2)
       else set_lastNotifyTime now s2
  else s2.
Proof.
  unfold loop, sampling_tick, notification_tick, connected_at_notify.
  cbv zeta.
  destruct (BLE_poll_frame (poll_events i) st) as (_ & _ & Hs & Hn & _).
  set (s1 := BLE_poll (poll_events i) st) in *.
  set (now := wrap32 (millis_loop i)).
  assert (E1 : sample_due now s1 = sample_due now st)
    by (unfold sample_due; now rewrite Hs).
  rewrite E1.
  set (s2 := if sample_due now st
             then readSensors (readings i) (set_lastSampleTime now s1)
             else s1).
  assert (E2 : notify_due now s2 = notify_due now st).
  { unfold notify_due, s2. destruct (sample_due now st).
    - destruct (readSensors_timers (readings i) (set_lastSampleTime now s1))
        as [_ ->]. cbn [set_lastSampleTime lastNotifyTime]. now rewrite Hn.
    - now rewrite Hn. }
  assert (E3 : connected (ble (set_lastNotifyTime now s2))
               = connected (ble s1)).
  { unfold s2. destruct (sample_due now st); [|reflexivity].
    cbn [set_lastNotifyTime ble]. now rewrite readSensors_ble. }
  rewrite E2, E3. reflexivity.
Qed.

Lemma loop_available (i : LoopInput) (st : State) (s : Subsystem) :
  available s (loop i st) = available s st.
Proof.
  rewrite loop_unfold. cbv zeta.
  destruct (BLE_poll_frame (poll_events i) st) as (_ & Ha & _).
  set (s1 := BLE_poll (poll_events i) st) in *.
  assert (H2 : forall s2, available s (set_lastNotifyTime
                                         (wrap32 (millis_loop i)) s2)
                          = available s s2)
    by (intros s2; destruct s; reflexivity).
  assert (Hs : available s (set_lastSampleTime (wrap32 (millis_loop i)) s1)
               = available s s1)
    by (destruct s; reflexivity).
  destruct (notification_tick i st), (connected_at_notify i st),
    (sampling_tick i st);
    repeat first
      [ rewrite (proj1 (proj2 (proj2 (proj2 (proj2 (proj2 (proj2
                  (updateAndNotify_spec _ _))))))))
      | rewrite H2 | rewrite readSensors_available | rewrite Hs
      | rewrite Ha ]; reflexivity.
Qed.

(** Sensor members after an iteration: refreshed by [readSensors] when the
    sample timer fires, otherwise left alone; events and notification never
    touch them. *)
Lemma loop_frame (i : LoopInput) (st : State) :
  frame (packet (loop i st))
  = if sampling_tick i st
    then frame (packet (readSensors (readings i) st))
    else frame (packet st).
Proof.
  rewrite loop_unfold. cbv zeta.
  destruct (BLE_poll_frame (poll_events i) st) as (Hp & Ha & _).
  set (s1 := BLE_poll (poll_events i) st) in *.
  set (now := wrap32 (millis_loop i)).
  assert (Hrs : frame (packet (readSensors (readings i)
                                 (set_lastSampleTime now s1)))
                = frame (packet (readSensors (readings i) st))).
  { rewrite !readSensors_frame.
    change (hts_ok (set_lastSampleTime now s1))
      with (available TempHumidity s1).
    change (baro_ok (set_lastSampleTime now s1)) with (available Pressure s1).
    change (apds_ok (set_lastSampleTime now s1)) with (available Light s1).
    change (lsm_ok (set_lastSampleTime now s1)) with (available Motion s1).
    rewrite !Ha. reflexivity. }
  destruct (notification_tick i st), (connected_at_notify i st),
    (sampling_tick i st);
    repeat first
      [ rewrite (proj1 (proj2 (proj2 (proj2 (proj2 (proj2
                  (updateAndNotify_spec _ _)))))))
      | progress change (packet (set_lastNotifyTime ?v ?s)) with (packet s) ];
    try rewrite Hrs; try rewrite Hp; reflexivity.
Qed.

(** Header members, sequence counter and write log after an iteration. *)
Lemma loop_packet_log (i : LoopInput) (st : State) :
  let st' := loop i st in
  magic (packet st') = magic (packet st)
  /\ node_id (packet st') = node_id (packet st)
  /\ reserved (packet st') = reserved (packet st)
  /\ (if notification_tick i st && connected_at_notify i st
      then seq (packet st') = wrap16 (seq (packet st) + 1)
           /\ written st'
              = written st
                  ++ [firstn sizeof_CortexPacket (packet_bytes (packet st'))]
      else seq (packet st') = seq (packet st)
           /\ written st' = written st).
Proof.
  cbv zeta. rewrite loop_unfold. cbv zeta.
  destruct (BLE_poll_frame (poll_events i) st) as (Hp & _ & _ & _ & Hw).
  set (s1 := BLE_poll (poll_events i) st) in *.
  set (now := wrap32 (millis_loop i)).
  set (s2 := if sampling_tick i st
             then readSensors (readings i) (set_lastSampleTime now s1)
             else s1).
  assert (H2 : magic (packet s2) = magic (packet st)
               /\ node_id (packet s2) = node_id (packet st)
               /\ reserved (packet s2) = reserved (packet st)
               /\ seq (packet s2) = seq (packet st)
               /\ written s2 = written st).
  { unfold s2. destruct (sampling_tick i st).
    - destruct (readSensors_header (readings i) (set_lastSampleTime now s1))
        as (-> & -> & -> & -> & _).
      unfold written. rewrite readSensors_trace. fold (written s1).
      simpl. rewrite Hp. repeat split; try reflexivity. exact Hw.
    - rewrite Hp. repeat split; try reflexivity. exact Hw. }
  destruct H2 as (Hm & Hn & Hr & Hq & Hw2).
  destruct (notification_tick i st), (connected_at_notify i st); cbn [andb].
  - pose proof (updateAndNotify_spec (millis_notify i)
                  (set_lastNotifyTime now s2)) as H.
    cbv zeta in H. destruct H as (Eq & _ & Em & En & Er & _ & _ & _ & Ew).
    change (packet (set_lastNotifyTime now s2)) with (packet s2) in *.
    change (written (set_lastNotifyTime now s2)) with (written s2) in *.
    repeat split; congruence.
  - change (packet (set_lastNotifyTime now s2)) with (packet s2).
    change (written (set_lastNotifyTime now s2)) with (written s2).
    repeat split; assumption.
  - repeat split; assumption.
  - repeat split; assumption.
Qed.

(** ** State after [setup] *)

Lemma boot_packet_eq (hw : InitResults) :
  packet (state_of (boot hw)) = boot_packet.
Proof.
  destruct hw as [h b a m l]; destruct h, b, a, m, l; reflexivity.
Qed.

Lemma boot_available (hw : InitResults) (s : Subsystem) :
  available s (state_of (boot hw)) = began s hw.
Proof.
  destruct hw as [h b a m l]; destruct s, h, b, a, m, l; reflexivity.
Qed.

Lemma boot_running (hw : InitResults) (st : State) :
  boot hw = Running st ->
  ble_begin hw = true
  /\ written st = [firstn sizeof_CortexPacket (packet_bytes boot_packet)]
  /\ ble st = mkBLE false true
  /\ lastSampleTime st = 0
  /\ lastNotifyTime st = 0.
Proof.
  destruct hw as [h b a m l]; destruct h, b, a, m, l; intros E;
    try discriminate E; injection E as <-; repeat split; reflexivity.
Qed.


(** ** Invariants hold along every execution *)

Lemma wrap16_succ (z : Z) : wrap16 (wrap16 z + 1) = wrap16 (z + 1).
Proof. unfold wrap16. now rewrite Z.add_mod_idemp_l by lia. Qed.

Lemma wrap16_idem (z : Z) : wrap16 (wrap16 z) = wrap16 z.
Proof. unfold wrap16. now rewrite Z.mod_mod by lia. Qed.

Lemma seq_inv_boot (hw : InitResults) (st : State) :
  boot hw = Running st -> seq_inv st.
Proof.
  intros E. destruct (boot_running hw st E) as (_ & Hw & _).
  assert (Hp : packet st = boot_packet)
    by (rewrite <- (boot_packet_eq hw), E; reflexivity).
  exists O. rewrite Hw, Hp. repeat split.
  intros [|k] bs Hk; cbn [nth_error] in Hk.
  - replace bs with (firstn sizeof_CortexPacket (packet_bytes boot_packet))
      by congruence.
    now rewrite wire_record_seq.
  - destruct k; discriminate Hk.
Qed.

Lemma seq_inv_loop (i : LoopInput) (st : State) :
  seq_inv st -> seq_inv (loop i st).
Proof.
  intros (n & Hlen & Hseq & Hrec).
  destruct (loop_packet_log i st) as (_ & _ & _ & Hstep).
  destruct (notification_tick i st && connected_at_notify i st).
  - destruct Hstep as [Hs Hw]. exists (S n). rewrite Hw.
    split; [rewrite length_app, Hlen; simpl; lia|].
    assert (Hs' : seq (packet (loop i st)) = wrap16 (Z.of_nat (S n))).
    { rewrite Hs, Hseq, wrap16_succ. f_equal. lia. }
    split; [exact Hs'|].
    intros k bs Hk.
    destruct (Nat.lt_ge_cases k (length (written st))) as [Hlt|Hge].
    + rewrite nth_error_app1 in Hk by exact Hlt. now apply Hrec.
    + rewrite nth_error_app2 in Hk by exact Hge.
      destruct (k - length (written st))%nat as [|d] eqn:Ed;
        cbn [nth_error] in Hk.
      * replace bs with (firstn sizeof_CortexPacket
                           (packet_bytes (packet (loop i st))))
          by congruence.
        rewrite wire_record_seq, Hs', wrap16_idem.
        f_equal. lia.
      * destruct d; discriminate Hk.
  - destruct Hstep as [Hs Hw]. exists n. rewrite Hw, Hs. now repeat split.
Qed.

Lemma seq_inv_run (hw : InitResults) (st : State) (ins : list LoopInput) :
  boot hw = Running st -> seq_inv (run ins st).
Proof.
  intros E. apply run_invariant.
  - exact seq_inv_loop.
  - exact (seq_inv_boot hw st E).
Qed.

(** The write log only grows: a run appends [transmitted] to it. *)
Lemma written_loop_prefix (i : LoopInput) (st : State) :
  exists new, written (loop i st) = written st ++ new.
Proof.
  destruct (loop_packet_log i st) as (_ & _ & _ & Hstep).
  destruct (notification_tick i st && connected_at_notify i st).
  - destruct Hstep as [_ ->]. eexists. reflexivity.
  - destruct Hstep as [_ ->]. exists []. now rewrite app_nil_r.
Qed.

Lemma written_run (ins : list LoopInput) :
  forall st, written (run ins st) = written st ++ transmitted ins st.
Proof.
  assert (H : forall st, exists new, written (run ins st) = written st ++ new).
  { induction ins as [|i ins IH]; intros st.
    - exists []. simpl. now rewrite app_nil_r.
    - simpl. destruct (IH (loop i st)) as [n2 E2].
      destruct (written_loop_prefix i st) as [n1 E1].
      exists (n1 ++ n2). now rewrite E2, E1, app_assoc. }
  intros st. destruct (H st) as [new E]. unfold transmitted.
  rewrite E at 2. rewrite skipn_app, skipn_all, Nat.sub_diag. simpl.
  exact E.
Qed.

Lemma header_inv_boot (hw : InitResults) (st : State) :
  boot hw = Running st -> header_inv st.
Proof.
  intros E. destruct (boot_running hw st E) as (_ & Hw & _).
  assert (Hp : packet st = boot_packet)
    by (rewrite <- (boot_packet_eq hw), E; reflexivity).
  unfold header_inv. rewrite Hw, Hp. repeat split.
  constructor; [|constructor].
  destruct (wire_record_header boot_packet) as (-> & -> & ->).
  repeat split.
Qed.

Lemma header_inv_loop (i : LoopInput) (st : State) :
  header_inv st -> header_inv (loop i st).
Proof.
  intros (Hm & Hn & Hr & Hall).
  destruct (loop_packet_log i st) as (Em & En & Er & Hstep).
  unfold header_inv. rewrite Em, En, Er.
  repeat split; try assumption.
  destruct (notification_tick i st && connected_at_notify i st).
  - destruct Hstep as [_ ->]. apply Forall_app. split; [exact Hall|].
    constructor; [|constructor].
    destruct (wire_record_header (packet (loop i st))) as (-> & -> & ->).
    rewrite Em, En, Er, Hm, Hn, Hr. repeat split.
  - destruct Hstep as [_ ->]. exact Hall.
Qed.

Lemma size_inv_loop (i : LoopInput) (st : State) :
  size_inv st -> size_inv (loop i st).
Proof.
  unfold size_inv. intros H.
  destruct (loop_packet_log i st) as (_ & _ & _ & Hstep).
  destruct (notification_tick i st && connected_at_notify i st).
  - destruct Hstep as [_ ->]. apply Forall_app. split; [exact H|].
    constructor; [apply wire_record_length|constructor].
  - destruct Hstep as [_ ->]. exact H.
Qed.

(** X2: every value handed to the characteristic after a successful setup,
    the initial one and each notification, is exactly 36 bytes long, the
    size the characteristic was declared with. *)
Lemma written_records_have_struct_size
      (hw : InitResults) (st : State) (ins : list LoopInput) :
  boot hw = Running st ->
  Forall (fun bs => length bs = 36%nat) (written (run ins st)).
Proof.
  intros E. apply (run_invariant size_inv size_inv_loop).
  destruct (boot_running hw st E) as (_ & Hw & _).
  unfold size_inv. rewrite Hw.
  constructor; [apply wire_record_length|constructor].
Qed.

Lemma fields_of_frame (s : Subsystem) (p q : CortexPacket) :
  frame p = frame q -> fields_of s p = fields_of s q.
Proof.
  unfold frame. intros H.
  assert (temp_c p = temp_c q /\ rh_pct p = rh_pct q
          /\ pressure_hpa p = pressure_hpa q /\ lux p = lux q
          /\ accel_g p = accel_g q) as (Ht & Hh & Hp & Hl & Ha)
    by (repeat split; congruence).
  destruct s; cbn [fields_of]; congruence.
Qed.

Lemma loop_fields (s : Subsystem) (i : LoopInput) (st : State) :
  fields_of s (packet (loop i st))
  = if sampling_tick i st
    then fields_of s (packet (readSensors (readings i) st))
    else fields_of s (packet st).
Proof.
  pose proof (loop_frame i st) as H.
  destruct (sampling_tick i st); now apply fields_of_frame.
Qed.

Lemma readSensors_unavailable (s : Subsystem) (r : Readings) (st : State) :
  available s st = false ->
  Forall (fun f => F32.isnan f = true) (fields_of s (packet (readSensors r st))).
Proof.
  intros H. pose proof (readSensors_frame r st) as F. unfold frame in F.
  destruct s; cbn [available] in H; rewrite H in F; cbn [andb] in F;
    cbn [fields_of]; repeat constructor.
  - replace (temp_c (packet (readSensors r st))) with NAN by congruence.
    reflexivity.
  - replace (rh_pct (packet (readSensors r st))) with NAN by congruence.
    reflexivity.
  - replace (pressure_hpa (packet (readSensors r st))) with NAN
      by congruence.
    reflexivity.
  - replace (lux (packet (readSensors r st))) with NAN by congruence.
    reflexivity.
  - replace (accel_g (packet (readSensors r st))) with NAN by congruence.
    reflexivity.
Qed.

Lemma nan_inv_loop (s : Subsystem) (i : LoopInput) (st : State) :
  nan_inv s st -> nan_inv s (loop i st).
Proof.
  intros [Ha Hn]. split.
  - now rewrite loop_available.
  - rewrite loop_fields. destruct (sampling_tick i st).
    + now apply readSensors_unavailable.
    + exact Hn.
Qed.

(** * Properties *)

(** C1: the record handed to the characteristic write is [sizeof(packet)]
    bytes of the packed structure, which has no padding member: after a
    successful boot, a connection and the first notification tick, the
    transmitted record is 36 bytes long and nothing lies at offset 36 or
    beyond (the documented length is 44 with 8 zero bytes at offset 36). *)
Theorem wire_record_is_36_bytes_without_padding :
  boot all_ok = Running booted
  /\ exists bs,
       transmitted [connect_and_notify] booted = [bs]
       /\ length bs = 36%nat
       /\ length bs <> 44%nat
       /\ skipn 36 bs = [].
Proof.
  split; [reflexivity|].
  eexists. split; [vm_compute; reflexivity|].
  split; [reflexivity|]. split; [discriminate|reflexivity].
Qed.

(** C2, as stated, fails: with the counter at 0 after boot, the first record
    transmitted while connected carries seq 1, not (1 - 1) mod 65536 = 0. *)
Lemma first_notification_carries_seq_1 :
  boot all_ok = Running booted
  /\ exists bs,
       nth_error (transmitted [connect_and_notify] booted) (1 - 1) = Some bs
       /\ record_seq bs = 1
       /\ record_seq bs <> (1 - 1) mod 65536.
Proof.
  split; [reflexivity|].
  eexists. split; [vm_compute; reflexivity|].
  split; [vm_compute; reflexivity|].
  vm_compute. discriminate.
Qed.

(** C2, amended: for every N >= 1, the N-th record transmitted after boot
    carries seq = N mod 65536; each call of updateAndNotify first increments
    the counter (modulo 2^16) and then writes the record, which carries the
    incremented value. *)
Theorem nth_transmitted_record_seq
        (hw : InitResults) (st : State) (ins : list LoopInput)
        (N : nat) (bs : list byte) :
  boot hw = Running st ->
  (1 <= N)%nat ->
  nth_error (transmitted ins st) (N - 1) = Some bs ->
  record_seq bs = Z.of_nat N mod 65536
  /\ forall m s,
       exists rec,
         written (updateAndNotify m s) = written s ++ [rec]
         /\ record_seq rec = (seq (packet s) + 1) mod 65536
         /\ seq (packet (updateAndNotify m s)) = record_seq rec.
Proof.
  intros E HN Hnth. split.
  - destruct (seq_inv_run hw st ins E) as (n & _ & _ & Hrec).
    destruct (boot_running hw st E) as (_ & Hw & _).
    assert (Hk : nth_error (written (run ins st)) N = Some bs).
    { rewrite written_run, nth_error_app2 by (rewrite Hw; simpl; lia).
      rewrite Hw. simpl length. exact Hnth. }
    apply Hrec in Hk. exact Hk.
  - intros m s. pose proof (updateAndNotify_spec m s) as H. cbv zeta in H.
    destruct H as (Hs & _ & _ & _ & _ & _ & _ & _ & Hw).
    eexists. split; [exact Hw|].
    rewrite wire_record_seq, Hs, wrap16_idem. split; reflexivity.
Qed.

(** Instance: three notifications after a successful boot; the third record
    carries seq 3. *)
Lemma nth_transmitted_record_seq_witness :
  boot all_ok = Running booted
  /\ (1 <= 3)%nat
  /\ nth_error (transmitted three_notifications booted) (3 - 1)
     = Some (firstn sizeof_CortexPacket
               (packet_bytes (packet (run three_notifications booted))))
  /\ record_seq (firstn sizeof_CortexPacket
                   (packet_bytes (packet (run three_notifications booted))))
     = Z.of_nat 3 mod 65536.
Proof.
  assert (E : boot all_ok = Running booted) by reflexivity.
  assert (H3 : (1 <= 3)%nat) by lia.
  assert (Hn : nth_error (transmitted three_notifications booted) (3 - 1)
               = Some (firstn sizeof_CortexPacket
                         (packet_bytes
                            (packet (run three_notifications booted)))))
    by (vm_compute; reflexivity).
  split; [exact E|]. split; [exact H3|]. split; [exact Hn|].
  exact (proj1 (nth_transmitted_record_seq all_ok booted three_notifications
                  3 _ E H3 Hn)).
Defined.



(** C4: for a subsystem whose begin() failed, setupSensors leaves the flag
    false; every member the subsystem feeds is then NaN after every sampling
    tick and stays NaN in every later state, whatever the drivers would
    report in any iteration, and the flag is never set afterwards. *)
Theorem unavailable_subsystem_fields_stay_nan
        (hw : InitResults) (st : State) (s : Subsystem)
        (ins : list LoopInput) (i : LoopInput) (later : list LoopInput) :
  boot hw = Running st ->
  began s hw = false ->
  sampling_tick i (run ins st) = true ->
  available s st = false
  /\ Forall (fun f => F32.isnan f = true)
            (fields_of s (packet (run later (loop i (run ins st)))))
  /\ available s (run later (loop i (run ins st))) = false.
Proof.
  intros E Hbegan Htick.
  assert (Hflag : available s st = false).
  { rewrite <- Hbegan, <- (boot_available hw s), E. reflexivity. }
  split; [exact Hflag|].
  assert (Hrun : available s (run ins st) = false).
  { apply (run_invariant (fun x => available s x = false)); [|exact Hflag].
    intros j x Hx. now rewrite loop_available. }
  assert (Hinv : nan_inv s (run later (loop i (run ins st)))).
  { apply run_invariant; [apply nan_inv_loop|]. split.
    - now rewrite loop_available.
    - rewrite loop_fields, Htick. now apply readSensors_unavailable. }
  destruct Hinv as [Ha Hn]. split; assumption.
Qed.

(** Instance: the HTS221 fails to start; temp_c and rh_pct are NaN after the
    tick at 100 ms and still after the tick at 200 ms, although the driver
    would report 21 degrees and 45 %. *)
Lemma unavailable_subsystem_fields_stay_nan_witness :
  boot hts_failed = Running booted_without_hts
  /\ began TempHumidity hts_failed = false
  /\ sampling_tick (tick 100 [] fresh) (run [] booted_without_hts) = true
  /\ available TempHumidity booted_without_hts = false
  /\ Forall (fun f => F32.isnan f = true)
            (fields_of TempHumidity
               (packet (run [tick 200 [] fresh]
                          (loop (tick 100 [] fresh)
                                (run [] booted_without_hts)))))
  /\ available TempHumidity
       (run [tick 200 [] fresh]
            (loop (tick 100 [] fresh) (run [] booted_without_hts))) = false.
Proof.
  assert (E : boot hts_failed = Running booted_without_hts) by reflexivity.
  assert (F : began TempHumidity hts_failed = false) by reflexivity.
  assert (T : sampling_tick (tick 100 [] fresh) (run [] booted_without_hts)
              = true) by reflexivity.
  split; [exact E|]. split; [exact F|]. split; [exact T|].
  exact (unavailable_subsystem_fields_stay_nan
           hts_failed booted_without_hts TempHumidity [] (tick 100 [] fresh)
           [tick 200 [] fresh] E F T).
Defined.

(** C5: on every sampling tick accel_g becomes
    sqrt(ax*ax + ay*ay + az*az), computed in single precision, when the IMU
    is available and a sample is ready, and NaN otherwise; sound_dbfs
    becomes NaN in all cases.  (0,0,1) gives 1.0 and (3,4,0) gives 5.0. *)
Theorem accel_magnitude_and_sound_placeholder
        (i : LoopInput) (st : State) (ax ay az : float) :
  sampling_tick i st = true ->
  imu_readAcceleration (readings i) = (ax, ay, az) ->
  accel_g (packet (loop i st))
  = (if lsm_ok st && imu_accelerationAvailable (readings i)
     then F32.sqrt (F32.add (F32.add (F32.mul ax ax) (F32.mul ay ay))
                            (F32.mul az az))
     else NAN)
  /\ sound_dbfs (packet (loop i st)) = NAN
  /\ accel_magnitude (F32.of_int 0, F32.of_int 0, F32.of_int 1) = F32.of_int 1
  /\ accel_magnitude (F32.of_int 3, F32.of_int 4, F32.of_int 0) = F32.of_int 5.
Proof.
  intros Htick Hacc.
  pose proof (loop_frame i st) as H. rewrite Htick, readSensors_frame in H.
  rewrite Hacc in H. cbn [accel_magnitude] in H. unfold frame in H.
  split; [congruence|]. split; [congruence|].
  split; vm_compute; reflexivity.
Qed.

(** Instance: first sampling tick with acceleration (0, 0, 1). *)
Lemma accel_magnitude_and_sound_placeholder_witness :
  sampling_tick (tick 100 [] fresh) booted = true
  /\ imu_readAcceleration (readings (tick 100 [] fresh))
     = (F32.of_int 0, F32.of_int 0, F32.of_int 1)
  /\ accel_g (packet (loop (tick 100 [] fresh) booted))
     = (if lsm_ok booted && imu_accelerationAvailable (readings (tick 100 [] fresh))
        then F32.sqrt (F32.add (F32.add (F32.mul (F32.of_int 0) (F32.of_int 0))
                                        (F32.mul (F32.of_int 0) (F32.of_int 0)))
                               (F32.mul (F32.of_int 1) (F32.of_int 1)))
        else NAN)
  /\ sound_dbfs (packet (loop (tick 100 [] fresh) booted)) = NAN.
Proof.
  assert (T : sampling_tick (tick 100 [] fresh) booted = true) by reflexivity.
  assert (A : imu_readAcceleration (readings (tick 100 [] fresh))
              = (F32.of_int 0, F32.of_int 0, F32.of_int 1)) by reflexivity.
  split; [exact T|]. split; [exact A|].
  pose proof (accel_magnitude_and_sound_placeholder
                (tick 100 [] fresh) booted _ _ _ T A) as H.
  split; [exact (proj1 H)|exact (proj1 (proj2 H))].
Defined.

(** C6: an iteration in which [BLE.connected()] answers false hands nothing
    to the characteristic, whether or not the notify timer fired (the timer
    is still re-armed, nothing is reported); and whenever the sample timer
    fires, in every connection state, the six sensor members are replaced:
    each reading of an available subsystem by the value its driver returns
    in this iteration (lux and accel_g only if a fresh sample is ready),
    every other member by NaN, which is what readSensors stores. *)
Theorem notification_gated_sampling_not (i : LoopInput) (st : State) :
  (lifecycle (BLE_poll (poll_events i) st) <> Connected ->
   written (loop i st) = written st
   /\ seq (packet (loop i st)) = seq (packet st))
  /\ (sampling_tick i st = true ->
      frame (packet (loop i st))
      = [ if hts_ok st then hts_readTemperature (readings i) else NAN;
          if hts_ok st then hts_readHumidity (readings i) else NAN;
          if baro_ok st then baro_readPressure (readings i) else NAN;
          if apds_ok st && apds_colorAvailable (readings i)
          then F32.of_int (snd (apds_readColor (readings i))) else NAN;
          if lsm_ok st && imu_accelerationAvailable (readings i)
          then accel_magnitude (imu_readAcceleration (readings i)) else NAN;
          NAN ]
      /\ frame (packet (loop i st))
         = frame (packet (readSensors (readings i) st))).
Proof.
  split.
  - intros Hnc.
    assert (Hc : connected_at_notify i st = false).
    { unfold connected_at_notify. unfold lifecycle in Hnc.
      destruct (connected (ble (BLE_poll (poll_events i) st)));
        [now elim Hnc|reflexivity]. }
    destruct (loop_packet_log i st) as (_ & _ & _ & Hstep).
    rewrite Hc, andb_false_r in Hstep. destruct Hstep as [Hs Hw].
    split; assumption.
  - intros Htick. rewrite loop_frame, Htick.
    split; [apply readSensors_frame|reflexivity].
Qed.

(** Instance: both timers fire at 200 ms while the node is advertising;
    nothing is written, and the frame, all zeros before, now holds the
    readings 21, 45, 1013, 300 and 1 with NaN for the sound level. *)
Lemma notification_gated_sampling_not_witness :
  lifecycle (BLE_poll (poll_events (tick 200 [] fresh)) booted) <> Connected
  /\ sampling_tick (tick 200 [] fresh) booted = true
  /\ notification_tick (tick 200 [] fresh) booted = true
  /\ written (loop (tick 200 [] fresh) booted) = written booted
  /\ frame (packet booted) = repeat F32.zero 6
  /\ frame (packet (loop (tick 200 [] fresh) booted))
     = [F32.of_int 21; F32.of_int 45; F32.of_int 1013; F32.of_int 300;
        F32.of_int 1; NAN]
  /\ frame (packet (loop (tick 200 [] fresh) booted))
     = frame (packet (readSensors (readings (tick 200 [] fresh)) booted)).
Proof.
  assert (L : lifecycle (BLE_poll (poll_events (tick 200 [] fresh)) booted)
              <> Connected) by (vm_compute; discriminate).
  assert (T : sampling_tick (tick 200 [] fresh) booted = true)
    by reflexivity.
  split; [exact L|]. split; [exact T|]. split; [reflexivity|].
  pose proof (notification_gated_sampling_not (tick 200 [] fresh) booted)
    as [H1 H2].
  split; [exact (proj1 (H1 L))|]. split; [reflexivity|].
  split; [exact (proj1 (H2 T))|exact (proj2 (H2 T))].
Defined.

(** C7: whatever the state, dispatching a disconnection event runs the
    handler to completion, which calls BLE.advertise() exactly once with no
    condition attached: the device ends up advertising, the sketch keeps
    running with its packet and flags intact, and a later connection event
    leads to Connected again. *)
Theorem disconnect_restarts_advertising (central : string) (st : State) :
  let st' := dispatch (EvDisconnected central) st in
  lifecycle st' = Advertising
  /\ advertise_calls (trace st') = S (advertise_calls (trace st))
  /\ advertising (ble (onBLEDisconnected central st)) = true
  /\ packet st' = packet st
  /\ (forall s, available s st' = available s st)
  /\ written st' = written st
  /\ forall central', lifecycle (dispatch (EvConnected central') st') = Connected.
Proof.
  cbv zeta.
  destruct (dispatch_frame (EvDisconnected central) st)
    as (Hp & Ha & _ & _ & Hw).
  split; [reflexivity|].
  split.
  { unfold dispatch, onBLEDisconnected, BLE_advertise. state_simpl.
    rewrite !advertise_calls_app. simpl. lia. }
  split; [reflexivity|].
  split; [exact Hp|]. split; [exact Ha|]. split; [exact Hw|].
  intros c. reflexivity.
Qed.

(** C8: of two records transmitted one after the other, the second carries
    the seq of the first plus one modulo 65536, so 65535 is followed by 0;
    the counter is 0 when setup returns, and an iteration of loop either
    leaves it alone or adds one modulo 65536 (exactly when it transmits):
    nothing decrements or clears it. *)
Theorem seq_increments_by_one_mod_65536
        (hw : InitResults) (st : State) (ins : list LoopInput)
        (k : nat) (a b : list byte) :
  boot hw = Running st ->
  nth_error (transmitted ins st) k = Some a ->
  nth_error (transmitted ins st) (S k) = Some b ->
  record_seq b = (record_seq a + 1) mod 65536
  /\ wrap16 (65535 + 1) = 0
  /\ seq (packet st) = 0
  /\ map record_seq (written st) = [0]
  /\ forall i s,
       seq (packet (loop i s))
       = if notification_tick i s && connected_at_notify i s
         then wrap16 (seq (packet s) + 1)
         else seq (packet s).
Proof.
  intros E Ha Hb.
  destruct (seq_inv_run hw st ins E) as (n & _ & _ & Hrec).
  destruct (boot_running hw st E) as (_ & Hw & _).
  assert (Hshift : forall j bs,
             nth_error (transmitted ins st) j = Some bs ->
             nth_error (written (run ins st)) (S j) = Some bs).
  { intros j bs Hj.
    rewrite written_run, nth_error_app2 by (rewrite Hw; simpl; lia).
    rewrite Hw. simpl length. now replace (S j - 1)%nat with j by lia. }
  apply Hshift, Hrec in Ha. apply Hshift, Hrec in Hb.
  split.
  { rewrite Ha, Hb. change (wrap16 (Z.of_nat (S (S k)))
                            = wrap16 (wrap16 (Z.of_nat (S k)) + 1)).
    rewrite wrap16_succ. f_equal. lia. }
  split; [reflexivity|].
  assert (Hp : packet st = boot_packet)
    by (rewrite <- (boot_packet_eq hw), E; reflexivity).
  split; [now rewrite Hp|].
  split.
  { rewrite Hw. cbn [map]. now rewrite wire_record_seq. }
  intros i s. destruct (loop_packet_log i s) as (_ & _ & _ & Hstep).
  destruct (notification_tick i s && connected_at_notify i s);
    destruct Hstep as [Hs _]; exact Hs.
Qed.

(** Instance: the second and third of three notifications. *)
Lemma seq_increments_by_one_mod_65536_witness :
  boot all_ok = Running booted
  /\ nth_error (transmitted three_notifications booted) 1
     = Some (firstn sizeof_CortexPacket
               (packet_bytes (packet (run (firstn 2 three_notifications)
                                          booted))))
  /\ nth_error (transmitted three_notifications booted) 2
     = Some (firstn sizeof_CortexPacket
               (packet_bytes (packet (run three_notifications booted))))
  /\ record_seq (firstn sizeof_CortexPacket
                   (packet_bytes (packet (run three_notifications booted))))
     = (record_seq
          (firstn sizeof_CortexPacket
             (packet_bytes (packet (run (firstn 2 three_notifications)
                                        booted)))) + 1) mod 65536.
Proof.
  assert (E : boot all_ok = Running booted) by reflexivity.
  assert (A : nth_error (transmitted three_notifications booted) 1
              = Some (firstn sizeof_CortexPacket
                        (packet_bytes
                           (packet (run (firstn 2 three_notifications)
                                        booted)))))
    by (vm_compute; reflexivity).
  assert (B : nth_error (transmitted three_notifications booted) 2
              = Some (firstn sizeof_CortexPacket
                        (packet_bytes
                           (packet (run three_notifications booted)))))
    by (vm_compute; reflexivity).
  split; [exact E|]. split; [exact A|]. split; [exact B|].
  exact (proj1 (seq_increments_by_one_mod_65536
                  all_ok booted three_notifications 1 _ _ E A B)).
Defined.

(** C9: in every state reached after setup the packet holds magic "CTX1",
    node_id NODE_ID (which lies in 0..254) and reserved 0, and every record
    handed to the characteristic, the initial value included, carries these
    three values at offsets 0, 4 and 5: sampling, events and transmission
    leave them as setup assigned them. *)
Theorem header_fields_constant
        (hw : InitResults) (st : State) (ins : list LoopInput) :
  boot hw = Running st ->
  magic (packet (run ins st)) = CTX1
  /\ node_id (packet (run ins st)) = NODE_ID
  /\ reserved (packet (run ins st)) = 0
  /\ 0 <= NODE_ID <= 254
  /\ Forall (fun bs => record_magic bs = list_byte_of_string "CTX1"
                       /\ record_node_id bs = NODE_ID
                       /\ record_reserved bs = 0)
            (written (run ins st)).
Proof.
  intros E.
  assert (H : header_inv (run ins st)).
  { apply run_invariant; [exact header_inv_loop|].
    exact (header_inv_boot hw st E). }
  destruct H as (Hm & Hn & Hr & Hall).
  split; [exact Hm|]. split; [exact Hn|]. split; [exact Hr|].
  split; [unfold NODE_ID; lia|]. exact Hall.
Qed.

(** Instance: the state and the four written values after three
    notifications. *)
Lemma header_fields_constant_witness :
  boot all_ok = Running booted
  /\ magic (packet (run three_notifications booted)) = CTX1
  /\ node_id (packet (run three_notifications booted)) = NODE_ID
  /\ reserved (packet (run three_notifications booted)) = 0
  /\ Forall (fun bs => record_magic bs = list_byte_of_string "CTX1"
                       /\ record_node_id bs = NODE_ID
                       /\ record_reserved bs = 0)
            (written (run three_notifications booted)).
Proof.
  assert (E : boot all_ok = Running booted) by reflexivity.
  pose proof (header_fields_constant all_ok booted three_notifications E)
    as (Hm & Hn & Hr & _ & Hall).
  split; [exact E|]. split; [exact Hm|]. split; [exact Hn|].
  split; [exact Hr|exact Hall].
Defined.

(** C10: when the light (respectively motion) subsystem is available, a
    call of readSensors that finds a fresh sample stores the reading in lux
    (respectively accel_g), and the next call, finding no fresh sample,
    replaces that reading by NaN although the subsystem is still
    available. *)
Theorem stale_sample_overwrites_with_nan (st : State) (r1 r2 : Readings) :
  let s1 := readSensors r1 st in
  let s2 := readSensors r2 s1 in
  (apds_ok st = true ->
   apds_colorAvailable r1 = true ->
   apds_colorAvailable r2 = false ->
   lux (packet s1) = F32.of_int (snd (apds_readColor r1))
   /\ lux (packet s2) = NAN
   /\ apds_ok s2 = true)
  /\ (lsm_ok st = true ->
      imu_accelerationAvailable r1 = true ->
      imu_accelerationAvailable r2 = false ->
      accel_g (packet s1) = accel_magnitude (imu_readAcceleration r1)
      /\ accel_g (packet s2) = NAN
      /\ lsm_ok s2 = true).
Proof.
  cbv zeta.
  destruct (readSensors_polled_flags r1 st) as [La Lm].
  destruct (readSensors_polled_flags r2 (readSensors r1 st)) as [La' Lm'].
  split; intros Hok H1 H2.
  - rewrite !readSensors_lux, La', La, Hok, H1, H2. repeat split.
  - rewrite !readSensors_accel_g, Lm', Lm, Hok, H1, H2. repeat split.
Qed.

(** Instance: lux is 300.0 after a call that finds a colour sample and NaN
    after the next call, which finds none. *)
Lemma stale_sample_overwrites_with_nan_witness :
  apds_ok booted = true
  /\ apds_colorAvailable fresh = true
  /\ apds_colorAvailable not_ready = false
  /\ lux (packet (readSensors fresh booted)) = F32.of_int 300
  /\ F32.isnan (lux (packet (readSensors fresh booted))) = false
  /\ lux (packet (readSensors not_ready (readSensors fresh booted))) = NAN
  /\ apds_ok (readSensors not_ready (readSensors fresh booted)) = true.
Proof.
  assert (O : apds_ok booted = true) by reflexivity.
  assert (R1 : apds_colorAvailable fresh = true) by reflexivity.
  assert (R2 : apds_colorAvailable not_ready = false) by reflexivity.
  pose proof (proj1 (stale_sample_overwrites_with_nan booted fresh not_ready)
                O R1 R2) as (H1 & H2 & H3).
  split; [exact O|]. split; [exact R1|]. split; [exact R2|].
  split; [exact H1|]. split; [reflexivity|]. split; [exact H2|exact H3].
Defined.

(** * Further properties of the sketch *)

(** ** Rounding never produces NaN *)

Lemma shr_1_nonneg (mrs : shr_record) :
  0 <= shr_m mrs -> 0 <= shr_m (shr_1 mrs).
Proof.
  destruct mrs as [m r s]. cbn [shr_m]. intros H.
  destruct m as [|p|p]; [| |lia]; simpl.
  - lia.
  - destruct p; simpl; lia.
Qed.

Lemma iter_shr_1_nonneg (p : positive) :
  forall mrs, 0 <= shr_m mrs -> 0 <= shr_m (iter_pos shr_1 p mrs).
Proof.
  induction p as [p IH|p IH|]; intros mrs H; simpl.
  - apply IH, IH. now apply shr_1_nonneg.
  - now apply IH, IH.
  - now apply shr_1_nonneg.
Qed.

Lemma shr_fexp_nonneg (m e : Z) (l : location) :
  0 <= m -> 0 <= shr_m (fst (shr_fexp F32.prec F32.emax m e l)).
Proof.
  intros H. unfold shr_fexp, shr.
  assert (H0 : 0 <= shr_m (shr_record_of_loc m l))
    by (destruct l as [|[| |]]; exact H).
  destruct (fexp F32.prec F32.emax (Zdigits2 m + e) - e) as [|p|p];
    cbn [fst]; try exact H0.
  now apply iter_shr_1_nonneg.
Qed.

Lemma round_nearest_even_nonneg (m : Z) (l : location) :
  0 <= m -> 0 <= round_nearest_even m l.
Proof.
  intros H. destruct l as [|[| |]]; simpl; try lia.
  destruct (Z.even m); lia.
Qed.

(** The result of rounding a non-negative mantissa is a zero, a finite value
    or an infinity carrying the requested sign. *)
Lemma binary_round_aux_sign (sx : bool) (mx ex : Z) (lx : location) :
  0 <= mx ->
  match binary_round_aux F32.prec F32.emax sx mx ex lx with
  | S754_nan => False
  | S754_zero s | S754_infinity s | S754_finite s _ _ => s = sx
  end.
Proof.
  intros H. unfold binary_round_aux.
  pose proof (shr_fexp_nonneg mx ex lx H) as H1.
  destruct (shr_fexp F32.prec F32.emax mx ex lx) as [mrs' e'].
  cbn [fst] in H1.
  pose proof (shr_fexp_nonneg _ e' loc_Exact
                (round_nearest_even_nonneg _ (loc_of_shr_record mrs') H1))
    as H2.
  destruct (shr_fexp F32.prec F32.emax
              (round_nearest_even (shr_m mrs') (loc_of_shr_record mrs'))
              e' loc_Exact) as [mrs'' e''].
  cbn [fst] in H2.
  destruct (shr_m mrs'') as [|p|p]; [reflexivity| |lia].
  destruct (e'' <=? F32.emax - F32.prec); reflexivity.
Qed.

Lemma binary_round_sign (sx : bool) (m : positive) (e : Z) :
  match binary_round F32.prec F32.emax sx m e with
  | S754_nan => False
  | S754_zero s | S754_infinity s | S754_finite s _ _ => s = sx
  end.
Proof.
  unfold binary_round.
  destruct (shl_align m e _) as [mz ez].
  apply binary_round_aux_sign. lia.
Qed.

Lemma of_int_not_nan (z : Z) : F32.isnan (F32.of_int z) = false.
Proof.
  unfold F32.of_int, binary_normalize. destruct z as [|p|p].
  - reflexivity.
  - pose proof (binary_round_sign false p 0) as H.
    destruct (binary_round F32.prec F32.emax false p 0);
      (reflexivity || contradiction).
  - pose proof (binary_round_sign true p 0) as H.
    destruct (binary_round F32.prec F32.emax true p 0);
      (reflexivity || contradiction).
Qed.

Lemma mul_self_nonneg (x : float) :
  nonneg (F32.mul x x) = negb (F32.isnan x).
Proof.
  unfold F32.mul. destruct x as [s|s| |s m e]; simpl.
  - now destruct s.
  - now destruct s.
  - reflexivity.
  - pose proof (binary_round_aux_sign (xorb s s) (Z.pos (m * m)) (e + e)
                  loc_Exact ltac:(lia)) as H.
    rewrite xorb_nilpotent in *.
    destruct (binary_round_aux F32.prec F32.emax false (Z.pos (m * m))
                (e + e) loc_Exact); subst; (reflexivity || contradiction).
Qed.

Lemma add_nonneg (x y : float) :
  nonneg x = true -> nonneg y = true -> nonneg (F32.add x y) = true.
Proof.
  unfold F32.add.
  destruct x as [[|]|[|]| |[|] mx ex]; try discriminate;
    destruct y as [[|]|[|]| |[|] my ey]; try discriminate;
    intros _ _; try reflexivity.
  unfold SFadd, cond_Zopp.
  destruct (shl_align mx ex (Z.min ex ey)) as [ma ea].
  destruct (shl_align my ey (Z.min ex ey)) as [mb eb]. cbn [fst].
  change (Z.pos ma + Z.pos mb) with (Z.pos (ma + mb)).
  unfold binary_normalize.
  pose proof (binary_round_sign false (ma + mb) (Z.min ex ey)) as H.
  destruct (binary_round F32.prec F32.emax false (ma + mb) (Z.min ex ey));
    subst; (reflexivity || contradiction).
Qed.

Lemma sqrt_nonneg (x : float) :
  nonneg x = true -> nonneg (F32.sqrt x) = true.
Proof.
  unfold F32.sqrt. destruct x as [[|]|[|]| |[|] m e]; try discriminate;
    intros _; try reflexivity.
  unfold SFsqrt, SFsqrt_core_binary.
  set (e' := Z.min _ _). set (m' := match e - 2 * e' with
                                    | 0 => Z.pos m
                                    | Z.pos _ => Z.shiftl (Z.pos m) (e - 2 * e')
                                    | Z.neg _ => 0
                                    end).
  pose proof (Z.sqrtrem_sqrt m') as Hq.
  assert (Hm : 0 <= m').
  { unfold m'. destruct (e - 2 * e'); try lia.
    apply Z.shiftl_nonneg. lia. }
  destruct (Z.sqrtrem m') as [q r]. cbn [fst] in Hq.
  pose proof (Z.sqrt_nonneg m') as Hs.
  pose proof (binary_round_aux_sign false q e'
                (if r =? 0 then loc_Exact
                 else loc_Inexact (if r <=? q then Lt else Gt))
                ltac:(lia)) as H.
  destruct (binary_round_aux F32.prec F32.emax false q e' _);
    subst; (reflexivity || contradiction).
Qed.

Lemma nonneg_not_nan (x : float) : nonneg x = true -> F32.isnan x = false.
Proof. destruct x as [[|]|[|]| |[|] m e]; (discriminate || reflexivity). Qed.

Lemma add_NAN_l (y : float) : F32.add NAN y = NAN.
Proof. reflexivity. Qed.

Lemma add_NAN_r (x : float) : F32.add x NAN = NAN.
Proof. destruct x; reflexivity. Qed.

Lemma accel_magnitude_nan_or_nonneg (ax ay az : float) :
  F32.isnan (accel_magnitude (ax, ay, az))
  = F32.isnan ax || F32.isnan ay || F32.isnan az
  /\ nonneg (accel_magnitude (ax, ay, az))
     = negb (F32.isnan (accel_magnitude (ax, ay, az))).
Proof.
  cbn [accel_magnitude].
  pose proof (mul_self_nonneg ax) as Hx.
  pose proof (mul_self_nonneg ay) as Hy.
  pose proof (mul_self_nonneg az) as Hz.
  destruct (F32.isnan ax) eqn:Nx; cbn [negb orb] in *.
  { destruct ax; try discriminate Nx. split; reflexivity. }
  destruct (F32.isnan ay) eqn:Ny; cbn [negb orb] in *.
  { destruct ay; try discriminate Ny.
    change (F32.mul S754_nan S754_nan) with NAN.
    rewrite add_NAN_r, add_NAN_l. split; reflexivity. }
  destruct (F32.isnan az) eqn:Nz; cbn [negb orb] in *.
  { destruct az; try discriminate Nz.
    change (F32.mul S754_nan S754_nan) with NAN.
    rewrite add_NAN_r. split; reflexivity. }
  pose proof (sqrt_nonneg _ (add_nonneg _ _ (add_nonneg _ _ Hx Hy) Hz)) as H.
  rewrite H, (nonneg_not_nan _ H). split; reflexivity.
Qed.

(** ** Layout of the written record *)

Lemma le_value_1 (z : Z) : le_value [byte_of_Z (z mod 256)] = z mod 2 ^ 8.
Proof. exact (le_value_le_bytes 1 z). Qed.

Lemma le_value_2 (z : Z) :
  le_value [byte_of_Z (z mod 256); byte_of_Z ((z / 256) mod 256)]
  = z mod 2 ^ 16.
Proof. exact (le_value_le_bytes 2 z). Qed.

Lemma le_value_4 (z : Z) :
  le_value [byte_of_Z (z mod 256); byte_of_Z ((z / 256) mod 256);
            byte_of_Z ((z / 256 / 256) mod 256);
            byte_of_Z ((z / 256 / 256 / 256) mod 256)]
  = z mod 2 ^ 32.
Proof. exact (le_value_le_bytes 4 z). Qed.

Lemma wire_record_floats (p : CortexPacket) :
  let bs := wire_record p in
  record_t_ms bs = wrap32 (t_ms p)
  /\ record_f32 offset_temp_c bs = F32.bits (temp_c p) mod 2 ^ 32
  /\ record_f32 offset_rh_pct bs = F32.bits (rh_pct p) mod 2 ^ 32
  /\ record_f32 offset_pressure_hpa bs = F32.bits (pressure_hpa p) mod 2 ^ 32
  /\ record_f32 offset_lux bs = F32.bits (lux p) mod 2 ^ 32
  /\ record_f32 offset_accel_g bs = F32.bits (accel_g p) mod 2 ^ 32
  /\ record_f32 offset_sound_dbfs bs = F32.bits (sound_dbfs p) mod 2 ^ 32.
Proof.
  cbv zeta.
  unfold wire_record, record_t_ms, record_f32, packet_bytes, magic_bytes,
    offset_temp_c, offset_rh_pct, offset_pressure_hpa, offset_lux,
    offset_accel_g, offset_sound_dbfs.
  destruct (magic p) as [[[m0 m1] m2] m3].
  cbn [le_bytes app firstn skipn sizeof_CortexPacket Nat.add Nat.mul].
  rewrite !le_value_4. unfold wrap32.
  repeat split; reflexivity.
Qed.

(** X1: the record is the packed structure, member after member: reading it
    back by offset gives every member of the packet (integers modulo the
    width of their type, floats as their bit pattern), and it is 36 bytes
    long. *)
Theorem wire_record_layout (p : CortexPacket) :
  let bs := wire_record p in
  length bs = 36%nat
  /\ record_magic bs = magic_bytes (magic p)
  /\ record_node_id bs = wrap8 (node_id p)
  /\ record_reserved bs = wrap8 (reserved p)
  /\ record_seq bs = wrap16 (seq p)
  /\ record_t_ms bs = wrap32 (t_ms p)
  /\ record_f32 offset_temp_c bs = F32.bits (temp_c p) mod 2 ^ 32
  /\ record_f32 offset_rh_pct bs = F32.bits (rh_pct p) mod 2 ^ 32
  /\ record_f32 offset_pressure_hpa bs = F32.bits (pressure_hpa p) mod 2 ^ 32
  /\ record_f32 offset_lux bs = F32.bits (lux p) mod 2 ^ 32
  /\ record_f32 offset_accel_g bs = F32.bits (accel_g p) mod 2 ^ 32
  /\ record_f32 offset_sound_dbfs bs = F32.bits (sound_dbfs p) mod 2 ^ 32.
Proof.
  cbv zeta. split; [apply wire_record_length|].
  destruct (wire_record_header p) as (Hm & Hn & Hr).
  split; [exact Hm|]. split; [exact Hn|]. split; [exact Hr|].
  split; [apply wire_record_seq|].
  exact (wire_record_floats p).
Qed.

(** ** Sensor values that can and cannot be NaN *)

(** X3: the lux member is NaN exactly when the light sensor is unavailable or
    has no fresh colour sample: the conversion of the ambient channel from
    [int] never yields NaN, so NaN in lux always means "no reading". *)
Theorem lux_nan_iff_no_fresh_sample (r : Readings) (st : State) :
  F32.isnan (lux (packet (readSensors r st)))
  = negb (apds_ok st && apds_colorAvailable r).
Proof.
  rewrite readSensors_lux.
  destruct (apds_ok st && apds_colorAvailable r); simpl.
  - apply of_int_not_nan.
  - reflexivity.
Qed.

(** X4: the accel_g member is NaN exactly when the IMU is unavailable, has no
    fresh sample, or reported NaN in a component; in every other case it is
    +0, a positive finite value or +infinity, never negative. *)
Theorem accel_g_nan_or_nonneg (r : Readings) (st : State) :
  let '(ax, ay, az) := imu_readAcceleration r in
  F32.isnan (accel_g (packet (readSensors r st)))
  = negb (lsm_ok st && imu_accelerationAvailable r)
    || F32.isnan ax || F32.isnan ay || F32.isnan az
  /\ nonneg (accel_g (packet (readSensors r st)))
     = negb (F32.isnan (accel_g (packet (readSensors r st)))).
Proof.
  rewrite readSensors_accel_g.
  destruct (imu_readAcceleration r) as [[ax ay] az].
  destruct (accel_magnitude_nan_or_nonneg ax ay az) as [Hn Hp].
  destruct (lsm_ok st && imu_accelerationAvailable r); cbn [negb orb].
  - split; assumption.
  - split; reflexivity.
Qed.

(** ** Timers *)

Lemma updateAndNotify_rest (m : Z) (st : State) :
  lastSampleTime (updateAndNotify m st) = lastSampleTime st
  /\ lastNotifyTime (updateAndNotify m st) = lastNotifyTime st
  /\ trace (updateAndNotify m st)
     = trace st
         ++ [CharacteristicWriteValue
               (wire_record (packet (updateAndNotify m st)))].
Proof. repeat split; reflexivity. Qed.

Lemma loop_timers (i : LoopInput) (st : State) :
  lastSampleTime (loop i st)
  = (if sampling_tick i st then wrap32 (millis_loop i)
     else lastSampleTime st)
  /\ lastNotifyTime (loop i st)
     = (if notification_tick i st then wrap32 (millis_loop i)
        else lastNotifyTime st).
Proof.
  rewrite loop_unfold. cbv zeta.
  destruct (BLE_poll_frame (poll_events i) st) as (_ & _ & Hs & Hn & _).
  set (s1 := BLE_poll (poll_events i) st) in *.
  set (now := wrap32 (millis_loop i)).
  set (s2 := if sampling_tick i st
             then readSensors (readings i) (set_lastSampleTime now s1)
             else s1).
  assert (H2 : lastSampleTime s2
               = (if sampling_tick i st then now else lastSampleTime st)
               /\ lastNotifyTime s2 = lastNotifyTime st).
  { unfold s2. destruct (sampling_tick i st).
    - destruct (readSensors_timers (readings i) (set_lastSampleTime now s1))
        as [-> ->]. split; [reflexivity|exact Hn].
    - split; assumption. }
  destruct H2 as [Hs2 Hn2].
  destruct (notification_tick i st); [|split; assumption].
  destruct (connected_at_notify i st).
  - destruct (updateAndNotify_rest (millis_notify i)
                (set_lastNotifyTime now s2)) as (-> & -> & _).
    split; [exact Hs2|reflexivity].
  - split; [exact Hs2|reflexivity].
Qed.

Lemma wrap32_elapsed (last d : Z) :
  0 <= d < 2 ^ 32 -> wrap32 (wrap32 (last + d) - last) = d.
Proof.
  intros H. unfold wrap32. rewrite Zminus_mod_idemp_l.
  replace (last + d - last) with d by lia. now apply Z.mod_small.
Qed.

Lemma wrap32_elapsed_wrapped (last d : Z) :
  0 <= d < 2 ^ 32 -> wrap32 (wrap32 (last + d) - wrap32 last) = d.
Proof.
  intros H. unfold wrap32. rewrite <- Zminus_mod.
  replace (last + d - last) with d by lia. now apply Z.mod_small.
Qed.

(** X5: the two timer tests are exact across the 32-bit rollover of
    millis(): if the clock reads [d] milliseconds (less than 2^32) after the
    stored time, wrapped or not, the sample timer fires iff d >= 100 and the
    notify timer fires iff d >= 200. *)
Theorem timer_tests_survive_rollover
        (i : LoopInput) (st : State) (ds dn : Z) :
  0 <= ds < 2 ^ 32 ->
  0 <= dn < 2 ^ 32 ->
  wrap32 (millis_loop i) = wrap32 (lastSampleTime st + ds) ->
  wrap32 (millis_loop i) = wrap32 (lastNotifyTime st + dn) ->
  sampling_tick i st = (100 <=? ds)
  /\ notification_tick i st = (200 <=? dn).
Proof.
  intros Hs Hn Es En.
  unfold sampling_tick, notification_tick, sample_due, notify_due,
    sampleInterval, notifyInterval.
  split.
  - rewrite Es, wrap32_elapsed by exact Hs. reflexivity.
  - rewrite En, wrap32_elapsed by exact Hn. reflexivity.
Qed.

(** Instance: both timers were armed 50 ms before the rollover and the
    clock now reads 60: 110 ms have elapsed, so the node samples but does
    not notify. *)
Lemma timer_tests_survive_rollover_witness :
  0 <= 110 < 2 ^ 32
  /\ wrap32 (millis_loop (tick 60 [] fresh))
     = wrap32 (lastSampleTime near_rollover + 110)
  /\ wrap32 (millis_loop (tick 60 [] fresh))
     = wrap32 (lastNotifyTime near_rollover + 110)
  /\ sampling_tick (tick 60 [] fresh) near_rollover = true
  /\ notification_tick (tick 60 [] fresh) near_rollover = false.
Proof.
  assert (R : 0 <= 110 < 2 ^ 32) by lia.
  assert (Es : wrap32 (millis_loop (tick 60 [] fresh))
               = wrap32 (lastSampleTime near_rollover + 110))
    by reflexivity.
  assert (En : wrap32 (millis_loop (tick 60 [] fresh))
               = wrap32 (lastNotifyTime near_rollover + 110))
    by reflexivity.
  split; [exact R|]. split; [exact Es|]. split; [exact En|].
  exact (timer_tests_survive_rollover (tick 60 [] fresh) near_rollover
           110 110 R R Es En).
Defined.

(** X6: sampling is rate-limited: after an iteration that sampled, an
    iteration whose clock reads less than 100 ms later leaves the sensor
    members and the sample timer untouched, whatever the drivers offer. *)
Theorem sampling_at_most_every_100_ms
        (i j : LoopInput) (st : State) (d : Z) :
  sampling_tick i st = true ->
  0 <= d < 100 ->
  wrap32 (millis_loop j) = wrap32 (millis_loop i + d) ->
  sampling_tick j (loop i st) = false
  /\ frame (packet (loop j (loop i st))) = frame (packet (loop i st))
  /\ lastSampleTime (loop j (loop i st)) = lastSampleTime (loop i st).
Proof.
  intros Hi Hd E.
  destruct (loop_timers i st) as [Hs _]. rewrite Hi in Hs.
  assert (Hj : sampling_tick j (loop i st) = false).
  { unfold sampling_tick, sample_due, sampleInterval.
    rewrite Hs, E, wrap32_elapsed_wrapped by lia.
    apply Z.leb_gt. lia. }
  split; [exact Hj|].
  split.
  - now rewrite loop_frame, Hj.
  - destruct (loop_timers j (loop i st)) as [-> _]. now rewrite Hj.
Qed.

Lemma sampling_at_most_every_100_ms_witness :
  sampling_tick (tick 100 [] fresh) booted = true
  /\ 0 <= 99 < 100
  /\ wrap32 (millis_loop (tick 199 [] not_ready))
     = wrap32 (millis_loop (tick 100 [] fresh) + 99)
  /\ sampling_tick (tick 199 [] not_ready) (loop (tick 100 [] fresh) booted)
     = false
  /\ frame (packet (loop (tick 199 [] not_ready)
                         (loop (tick 100 [] fresh) booted)))
     = frame (packet (loop (tick 100 [] fresh) booted)).
Proof.
  assert (T : sampling_tick (tick 100 [] fresh) booted = true)
    by reflexivity.
  assert (R : 0 <= 99 < 100) by lia.
  assert (E : wrap32 (millis_loop (tick 199 [] not_ready))
              = wrap32 (millis_loop (tick 100 [] fresh) + 99))
    by reflexivity.
  pose proof (sampling_at_most_every_100_ms
                (tick 100 [] fresh) (tick 199 [] not_ready) booted 99 T R E)
    as (H1 & H2 & _).
  split; [exact T|]. split; [exact R|]. split; [exact E|].
  split; [exact H1|exact H2].
Defined.

(** X7: notification is rate-limited, connected or not: after an iteration
    in which the notify timer fired, an iteration whose clock reads less
    than 200 ms later writes nothing and leaves seq alone, even if a central
    connected in between (the skipped tick has re-armed the timer). *)
Theorem notification_at_most_every_200_ms
        (i j : LoopInput) (st : State) (d : Z) :
  notification_tick i st = true ->
  0 <= d < 200 ->
  wrap32 (millis_loop j) = wrap32 (millis_loop i + d) ->
  notification_tick j (loop i st) = false
  /\ written (loop j (loop i st)) = written (loop i st)
  /\ seq (packet (loop j (loop i st))) = seq (packet (loop i st)).
Proof.
  intros Hi Hd E.
  destruct (loop_timers i st) as [_ Hn]. rewrite Hi in Hn.
  assert (Hj : notification_tick j (loop i st) = false).
  { unfold notification_tick, notify_due, notifyInterval.
    rewrite Hn, E, wrap32_elapsed_wrapped by lia.
    apply Z.leb_gt. lia. }
  split; [exact Hj|].
  destruct (loop_packet_log j (loop i st)) as (_ & _ & _ & Hstep).
  rewrite Hj in Hstep. cbn [andb] in Hstep. destruct Hstep as [Hs Hw].
  split; assumption.
Qed.

(** Instance: the notify timer fires at 200 ms while advertising; a central
    connects at 399 ms and still gets nothing in that iteration. *)
Lemma notification_at_most_every_200_ms_witness :
  notification_tick (tick 200 [] fresh) booted = true
  /\ 0 <= 199 < 200
  /\ wrap32 (millis_loop (tick 399 [EvConnected central_addr] fresh))
     = wrap32 (millis_loop (tick 200 [] fresh) + 199)
  /\ connected_at_notify (tick 399 [EvConnected central_addr] fresh)
                         (loop (tick 200 [] fresh) booted) = true
  /\ written (loop (tick 399 [EvConnected central_addr] fresh)
                   (loop (tick 200 [] fresh) booted))
     = written (loop (tick 200 [] fresh) booted).
Proof.
  assert (T : notification_tick (tick 200 [] fresh) booted = true)
    by reflexivity.
  assert (R : 0 <= 199 < 200) by lia.
  assert (E : wrap32 (millis_loop (tick 399 [EvConnected central_addr] fresh))
              = wrap32 (millis_loop (tick 200 [] fresh) + 199))
    by reflexivity.
  pose proof (notification_at_most_every_200_ms
                (tick 200 [] fresh)
                (tick 399 [EvConnected central_addr] fresh) booted 199 T R E)
    as (_ & H2 & _).
  split; [exact T|]. split; [exact R|]. split; [exact E|].
  split; [reflexivity|exact H2].
Defined.

(** ** Timestamp of an iteration *)

Lemma loop_t_ms (i : LoopInput) (st : State) :
  t_ms (packet (loop i st))
  = if notification_tick i st && connected_at_notify i st
    then wrap32 (millis_notify i)
    else t_ms (packet st).
Proof.
  rewrite loop_unfold. cbv zeta.
  destruct (BLE_poll_frame (poll_events i) st) as (Hp & _).
  set (s1 := BLE_poll (poll_events i) st) in *.
  set (now := wrap32 (millis_loop i)).
  set (s2 := if sampling_tick i st
             then readSensors (readings i) (set_lastSampleTime now s1)
             else s1).
  assert (H2 : t_ms (packet s2) = t_ms (packet st)).
  { unfold s2. destruct (sampling_tick i st).
    - destruct (readSensors_header (readings i) (set_lastSampleTime now s1))
        as (_ & _ & _ & _ & ->).
      cbn [set_lastSampleTime packet]. now rewrite Hp.
    - now rewrite Hp. }
  destruct (notification_tick i st), (connected_at_notify i st);
    cbn [andb]; try exact H2.
  pose proof (updateAndNotify_spec (millis_notify i)
                (set_lastNotifyTime now s2)) as H.
  cbv zeta in H. destruct H as (_ & Ht & _). exact Ht.
Qed.

(** ** Boot *)

(** X9: setup goes on to loop exactly when BLE.begin() succeeds, whatever
    the sensor drivers answered.  When it does, the node is advertising, has
    called BLE.advertise() once, has written the initial value and has
    switched the LED on; when it does not, nothing was written or
    advertised and the LED was never driven.  In both cases each
    availability flag holds the answer of its own begin(). *)
Theorem setup_halts_only_when_ble_begin_fails (hw : InitResults) :
  match boot hw with
  | Running st =>
      ble_begin hw = true
      /\ lifecycle st = Advertising
      /\ advertise_calls (trace st) = 1%nat
      /\ written st = [wire_record boot_packet]
      /\ led st = Some HIGH
  | Halted st =>
      ble_begin hw = false
      /\ lifecycle st = Idle
      /\ advertise_calls (trace st) = 0%nat
      /\ written st = []
      /\ led st = None
  end
  /\ forall s, available s (state_of (boot hw)) = began s hw.
Proof.
  split; [|apply boot_available].
  destruct hw as [h b a m l]; destruct h, b, a, m, l;
    repeat split; reflexivity.
Qed.

Lemma availability_flags_after_run
      (hw : InitResults) (st : State) (ins : list LoopInput) (s : Subsystem) :
  boot hw = Running st ->
  available s (run ins st) = began s hw.
Proof.
  intros E.
  rewrite <- (boot_available hw s), E. cbn [state_of].
  apply (run_invariant (fun x => available s x = available s st));
    [|reflexivity].
  intros i x Hx. now rewrite loop_available.
Qed.

(** X10: the availability flags are fixed by setup: after any number of
    iterations each flag still equals the answer its begin() gave, so a
    sensor that failed is never retried and one that started is never
    dropped. *)
Theorem availability_is_begin_result
        (hw : InitResults) (st : State) (ins : list LoopInput)
        (s : Subsystem) :
  boot hw = Running st ->
  available s (run ins st) = began s hw.
Proof.
  intros E.
  rewrite <- (boot_available hw s), E. cbn [state_of].
  induction ins as [|i ins IH] using rev_ind.
  - reflexivity.
  - now rewrite run_snoc, loop_available.
Qed.

Lemma availability_is_begin_result_witness :
  boot hts_failed = Running booted_without_hts
  /\ available TempHumidity (run three_notifications booted_without_hts)
     = false
  /\ available Light (run three_notifications booted_without_hts) = true.
Proof.
  assert (E : boot hts_failed = Running booted_without_hts) by reflexivity.
  split; [exact E|].
  split.
  - exact (availability_is_begin_result hts_failed booted_without_hts
             three_notifications TempHumidity E).
  - exact (availability_is_begin_result hts_failed booted_without_hts
             three_notifications Light E).
Defined.

(** ** Sampling keeps no history *)

(** X11: a call of readSensors replaces each of the six sensor members (a
    reading of an available, ready subsystem, NaN otherwise) and leaves the
    header members, seq, t_ms, the flags, the timers, the link state and the
    trace as they were; since the new members do not depend on the old
    ones, of two consecutive calls only the second leaves a mark: there is
    no averaging or hold of earlier samples. *)
Theorem readSensors_overwrites (r1 r2 : Readings) (st : State) :
  readSensors r2 st
  = set_packet
      (fun p =>
         mkPacket (magic p) (node_id p) (reserved p) (seq p) (t_ms p)
           (if hts_ok st then hts_readTemperature r2 else NAN)
           (if hts_ok st then hts_readHumidity r2 else NAN)
           (if baro_ok st then baro_readPressure r2 else NAN)
           (if apds_ok st && apds_colorAvailable r2
            then F32.of_int (snd (apds_readColor r2)) else NAN)
           (if lsm_ok st && imu_accelerationAvailable r2
            then accel_magnitude (imu_readAcceleration r2) else NAN)
           NAN)
      st
  /\ readSensors r2 (readSensors r1 st) = readSensors r2 st.
Proof.
  destruct st as [p h b a l ts tn bl tr].
  unfold readSensors.
  destruct (apds_readColor r1) as [[[cr1 cg1] cb1] ca1].
  destruct (apds_readColor r2) as [[[cr2 cg2] cb2] ca2].
  state_simpl. cbn [snd].
  split.
  - destruct a, (apds_colorAvailable r2); cbn [andb]; state_simpl;
      destruct l, (imu_accelerationAvailable r2); cbn [andb]; state_simpl;
      destruct h, b; reflexivity.
  - destruct a, (apds_colorAvailable r1); cbn [andb]; state_simpl;
      destruct l, (imu_accelerationAvailable r1); cbn [andb]; state_simpl;
      destruct (apds_colorAvailable r2); cbn [andb]; state_simpl;
      destruct (imu_accelerationAvailable r2); cbn [andb]; state_simpl;
      destruct h, b; reflexivity.
Qed.

(** ** Counting notifications *)

(** X12: after setup the sequence counter equals the number of records
    transmitted so far, modulo 65536, and the records of a run split at any
    point are those of the first part followed by those of the second. *)
Theorem seq_counts_notifications
        (hw : InitResults) (st : State) (ins more : list LoopInput) :
  boot hw = Running st ->
  seq (packet (run ins st)) = Z.of_nat (length (transmitted ins st)) mod 65536
  /\ transmitted (ins ++ more) st
     = transmitted ins st ++ transmitted more (run ins st).
Proof.
  intros E.
  destruct (boot_running hw st E) as (_ & Hw & _).
  split.
  - destruct (seq_inv_run hw st ins E) as (n & Hlen & Hseq & _).
    rewrite written_run, length_app, Hw in Hlen. simpl in Hlen.
    injection Hlen as Hlen. rewrite Hseq, <- Hlen. reflexivity.
  - unfold transmitted at 1. rewrite run_app.
    rewrite (written_run more (run ins st)), (written_run ins st).
    rewrite <- app_assoc, skipn_app, skipn_all, Nat.sub_diag. reflexivity.
Qed.

Lemma seq_counts_notifications_witness :
  boot all_ok = Running booted
  /\ seq (packet (run three_notifications booted))
     = Z.of_nat (length (transmitted three_notifications booted)) mod 65536
  /\ length (transmitted three_notifications booted) = 3%nat.
Proof.
  assert (E : boot all_ok = Running booted) by reflexivity.
  split; [exact E|].
  split.
  - exact (proj1 (seq_counts_notifications all_ok booted three_notifications
                    [] E)).
  - vm_compute. reflexivity.
Defined.

(** ** Connection events and the indicator *)

Lemma led_after_app (a b : list Effect) :
  forall cur, led_after cur (a ++ b) = led_after (led_after cur a) b.
Proof.
  induction a as [|e a IH]; intros cur; simpl.
  - reflexivity.
  - destruct e; apply IH.
Qed.

Lemma led_emit (e : Effect) (st : State) :
  led (emit e st)
  = match e with
    | DigitalWrite v => Some v
    | _ => led st
    end.
Proof.
  unfold led, emit. cbn [trace]. rewrite led_after_app.
  destruct e; reflexivity.
Qed.

Lemma dispatch_link (e : BleEvent) (st : State) :
  lifecycle (dispatch e st)
  = match e with
    | EvConnected _ => Connected
    | EvDisconnected _ => Advertising
    end
  /\ led (dispatch e st)
     = Some (match e with
             | EvConnected _ => LOW
             | EvDisconnected _ => HIGH
             end).
Proof.
  destruct e as [c|c]; split; try reflexivity.
  - unfold dispatch, onBLEConnected. now rewrite led_emit.
  - unfold dispatch, onBLEDisconnected, BLE_advertise.
    rewrite !led_emit. change (led (set_ble ?v ?s)) with (led s).
    now rewrite led_emit.
Qed.

Lemma BLE_poll_snoc (evs : list BleEvent) (e : BleEvent) (st : State) :
  BLE_poll (evs ++ [e]) st = dispatch e (BLE_poll evs st).
Proof. unfold BLE_poll. now rewrite fold_left_app. Qed.

Lemma boot_running_link
      (hw : InitResults) (st : State) :
  boot hw = Running st ->
  lifecycle st = Advertising
  /\ led st = Some HIGH
  /\ connected (ble st) = false.
Proof.
  destruct hw as [h b a m l]; destruct h, b, a, m, l; intros E;
    try discriminate E; injection E as <-; repeat split; reflexivity.
Qed.

(** X13: when BLE.poll() delivers events, the link state and the LED after the
    poll are those of the last event (Connected with the LED off after a
    connection, Advertising with the LED on after a disconnection), and no
    event touches the packet, the flags, the timers or the characteristic. *)
Theorem poll_ends_in_state_of_last_event
        (evs : list BleEvent) (e : BleEvent) (st : State) :
  let st' := BLE_poll (evs ++ [e]) st in
  lifecycle st'
  = match e with
    | EvConnected _ => Connected
    | EvDisconnected _ => Advertising
    end
  /\ led st'
     = Some (match e with
             | EvConnected _ => LOW
             | EvDisconnected _ => HIGH
             end)
  /\ packet st' = packet st
  /\ (forall s, available s st' = available s st)
  /\ lastSampleTime st' = lastSampleTime st
  /\ lastNotifyTime st' = lastNotifyTime st
  /\ written st' = written st.
Proof.
  cbv zeta.
  destruct (BLE_poll_frame (evs ++ [e]) st) as (Hp & Ha & Hs & Hn & Hw).
  rewrite BLE_poll_snoc in *.
  destruct (dispatch_link e (BLE_poll evs st)) as [Hl Hd].
  split; [exact Hl|]. split; [exact Hd|]. split; [exact Hp|].
  split; [exact Ha|]. split; [exact Hs|]. split; [exact Hn|exact Hw].
Qed.

Lemma link_inv_poll (evs : list BleEvent) (st : State) :
  link_inv st -> link_inv (BLE_poll evs st).
Proof.
  destruct evs as [|e0 evs] using rev_ind; intros H.
  - exact H.
  - rewrite BLE_poll_snoc.
    destruct (dispatch_link e0 (BLE_poll evs st)) as [Hl Hd].
    unfold link_inv. rewrite Hl, Hd.
    destruct e0 as [c|c]; split; (discriminate || reflexivity).
Qed.

Lemma loop_link (i : LoopInput) (st : State) :
  ble (loop i st) = ble (BLE_poll (poll_events i) st)
  /\ led (loop i st) = led (BLE_poll (poll_events i) st).
Proof.
  rewrite loop_unfold. cbv zeta.
  set (s1 := BLE_poll (poll_events i) st).
  set (now := wrap32 (millis_loop i)).
  set (s2 := if sampling_tick i st
             then readSensors (readings i) (set_lastSampleTime now s1)
             else s1).
  assert (H2 : ble s2 = ble s1 /\ led s2 = led s1).
  { unfold s2. destruct (sampling_tick i st); [|split; reflexivity].
    unfold led. rewrite readSensors_ble, readSensors_trace.
    split; reflexivity. }
  destruct H2 as [Hb Hl].
  destruct (notification_tick i st); [|split; assumption].
  destruct (connected_at_notify i st); [|split; assumption].
  pose proof (updateAndNotify_spec (millis_notify i)
                (set_lastNotifyTime now s2)) as H.
  cbv zeta in H. destruct H as (_ & _ & _ & _ & _ & _ & _ & Hble & _).
  destruct (updateAndNotify_rest (millis_notify i)
              (set_lastNotifyTime now s2)) as (_ & _ & Htr).
  split.
  - rewrite Hble. exact Hb.
  - unfold led. rewrite Htr, led_after_app. exact Hl.
Qed.

(** X14: in every state reached after setup the node is connected or
    advertising, never neither, and the LED is on exactly while no central
    is connected. *)
Theorem led_mirrors_connection
        (hw : InitResults) (st : State) (ins : list LoopInput) :
  boot hw = Running st ->
  lifecycle (run ins st) <> Idle
  /\ led (run ins st)
     = Some (if connected (ble (run ins st)) then LOW else HIGH).
Proof.
  intros E. change (link_inv (run ins st)).
  apply run_invariant.
  - intros i x Hx.
    pose proof (link_inv_poll (poll_events i) x Hx) as [Hl Hd].
    destruct (loop_link i x) as [Eb El].
    unfold link_inv, lifecycle in *. rewrite Eb, El. split; assumption.
  - pose proof (boot_running_link hw st E)
      as (Hl & Hd & Hb).
    unfold link_inv. rewrite Hl, Hd, Hb. split; [discriminate|reflexivity].
Qed.

(** Instance: after three notifications the node is connected and the LED
    is off. *)
Lemma led_mirrors_connection_witness :
  boot all_ok = Running booted
  /\ lifecycle (run three_notifications booted) = Connected
  /\ led (run three_notifications booted)
     = Some (if connected (ble (run three_notifications booted))
             then LOW else HIGH).
Proof.
  assert (E : boot all_ok = Running booted) by reflexivity.
  split; [exact E|]. split; [reflexivity|].
  exact (proj2 (led_mirrors_connection all_ok booted three_notifications E)).
Defined.

(** ** What a notification carries *)

(** X15: when the notify timer fires while connected, the iteration transmits
    exactly one record; it is built after the sampling of the same
    iteration, so it carries the sample just taken when the sample timer
    fired too, its t_ms is the clock value read inside updateAndNotify, and
    its six float members are the bit patterns of the frame, unchanged. *)
Theorem notification_carries_latest_sample (i : LoopInput) (st : State) :
  notification_tick i st = true ->
  connected_at_notify i st = true ->
  let p' := packet (loop i st) in
  transmitted [i] st = [wire_record p']
  /\ frame p' = (if sampling_tick i st
                 then frame (packet (readSensors (readings i) st))
                 else frame (packet st))
  /\ record_t_ms (wire_record p') = wrap32 (millis_notify i)
  /\ map (fun off => record_f32 off (wire_record p'))
         [offset_temp_c; offset_rh_pct; offset_pressure_hpa; offset_lux;
          offset_accel_g; offset_sound_dbfs]
     = map (fun f => F32.bits f mod 2 ^ 32) (frame p').
Proof.
  intros Hn Hc. cbv zeta.
  destruct (loop_packet_log i st) as (_ & _ & _ & Hstep).
  rewrite Hn, Hc in Hstep. cbn [andb] in Hstep. destruct Hstep as [_ Hw].
  pose proof (loop_t_ms i st) as Ht. rewrite Hn, Hc in Ht. cbn [andb] in Ht.
  pose proof (wire_record_floats (packet (loop i st))) as L. cbv zeta in L.
  destruct L as (Lt & L1 & L2 & L3 & L4 & L5 & L6).
  split.
  { unfold transmitted. change (run [i] st) with (loop i st).
    rewrite Hw, skipn_app, skipn_all, Nat.sub_diag. reflexivity. }
  split; [apply loop_frame|].
  split.
  { rewrite Lt, Ht. unfold wrap32. apply Z.mod_mod. lia. }
  unfold frame. cbn [map]. now rewrite L1, L2, L3, L4, L5, L6.
Qed.

Lemma notification_carries_latest_sample_witness :
  notification_tick connect_and_notify booted = true
  /\ connected_at_notify connect_and_notify booted = true
  /\ transmitted [connect_and_notify] booted
     = [wire_record (packet (loop connect_and_notify booted))]
  /\ record_t_ms (wire_record (packet (loop connect_and_notify booted)))
     = wrap32 (millis_notify connect_and_notify).
Proof.
  assert (N : notification_tick connect_and_notify booted = true)
    by reflexivity.
  assert (C : connected_at_notify connect_and_notify booted = true)
    by reflexivity.
  pose proof (notification_carries_latest_sample connect_and_notify booted
                N C) as (H1 & _ & H3 & _).
  split; [exact N|]. split; [exact C|]. split; [exact H1|exact H3].
Defined.

Lemma readSensors_sampled (r : Readings) (st : State) :
  sampled (readSensors r st).
Proof.
  split.
  - pose proof (readSensors_frame r st) as F. unfold frame in F. congruence.
  - intros s Hs. rewrite readSensors_available in Hs.
    pose proof (readSensors_unavailable s r st Hs) as H.
    eapply Forall_impl; [|exact H].
    intros f Hf. destruct f; try discriminate Hf. reflexivity.
Qed.

Lemma sampled_frame (st st' : State) :
  (forall s, available s st' = available s st) ->
  frame (packet st') = frame (packet st) ->
  sampled st -> sampled st'.
Proof.
  intros Ha Hf [Hs Hn]. split.
  - unfold frame in Hf. congruence.
  - intros s Hs'. rewrite Ha in Hs'.
    rewrite (fields_of_frame s _ _ Hf). now apply Hn.
Qed.

Lemma sampled_loop (i : LoopInput) (st : State) :
  sampled st \/ sampling_tick i st = true -> sampled (loop i st).
Proof.
  intros H. pose proof (loop_frame i st) as Hf.
  destruct (sampling_tick i st).
  - apply (sampled_frame (readSensors (readings i) st)).
    + intros s. now rewrite loop_available, readSensors_available.
    + exact Hf.
    + apply readSensors_sampled.
  - destruct H as [H|H]; [|discriminate H].
    apply (sampled_frame st); [|exact Hf|exact H].
    intros s. apply loop_available.
Qed.

Lemma sampled_nan_on_wire (st : State) :
  sampled st ->
  nan_on_wire (fun s => available s st) (wire_record (packet st)).
Proof.
  intros [Hs Hn].
  pose proof (wire_record_floats (packet st)) as L. cbv zeta in L.
  destruct L as (_ & L1 & L2 & L3 & L4 & L5 & L6).
  split.
  - rewrite L6, Hs. reflexivity.
  - intros s Ha. specialize (Hn s Ha).
    destruct s; cbn [fields_of field_offsets] in *;
      repeat match goal with
             | H : Forall _ (_ :: _) |- _ =>
                 apply Forall_cons_iff in H; destruct H
             end;
      repeat constructor.
    + rewrite L1. replace (temp_c (packet st)) with NAN. reflexivity.
    + rewrite L2. replace (rh_pct (packet st)) with NAN. reflexivity.
    + rewrite L3. replace (pressure_hpa (packet st)) with NAN. reflexivity.
    + rewrite L4. replace (lux (packet st)) with NAN. reflexivity.
    + rewrite L5. replace (accel_g (packet st)) with NAN. reflexivity.
Qed.

Lemma wire_inv_loop (i : LoopInput) (st : State) :
  wire_inv st -> wire_inv (loop i st).
Proof.
  intros (Hsf & Hne & Hall).
  destruct (loop_timers i st) as [Es En].
  destruct (loop_packet_log i st) as (_ & _ & _ & Hstep).
  assert (Hfire : lastSampleTime st = 0 -> lastNotifyTime st = 0 ->
                  notification_tick i st = true -> sampling_tick i st = true).
  { unfold notification_tick, sampling_tick, notify_due, sample_due,
      notifyInterval, sampleInterval.
    intros -> ->. rewrite !Z.leb_le. lia. }
  assert (Hflags : Forall (nan_on_wire (fun s => available s (loop i st)))
                          (tl (written st))).
  { eapply Forall_impl; [|exact Hall].
    intros bs [H1 H2]. split; [exact H1|].
    intros s Hs. rewrite loop_available in Hs. now apply H2. }
  split; [|split].
  - destruct Hsf as [Hs|[H1 H2]].
    + left. apply sampled_loop. now left.
    + destruct (sampling_tick i st) eqn:Hst.
      * left. apply sampled_loop. now right.
      * right. rewrite Es, En. split; [exact H1|].
        destruct (notification_tick i st) eqn:Hnt; [|exact H2].
        discriminate (Hfire H1 H2 eq_refl).
  - destruct (notification_tick i st && connected_at_notify i st);
      destruct Hstep as [_ ->]; [|exact Hne].
    destruct (written st); [contradiction|discriminate].
  - destruct (notification_tick i st && connected_at_notify i st) eqn:Hnc;
      destruct Hstep as [_ Hw]; rewrite Hw; [|exact Hflags].
    destruct (written st) as [|w0 ws]; [contradiction|].
    cbn [tl app] in *. apply Forall_app. split; [exact Hflags|].
    constructor; [|constructor].
    apply (sampled_nan_on_wire (loop i st)).
    apply andb_prop in Hnc. destruct Hnc as [Hnt _].
    apply sampled_loop.
    destruct Hsf as [Hs|[H1 H2]]; [now left|right; now apply Hfire].
Qed.

(** X16: every record transmitted by a notification was built from a frame
    that readSensors has filled at least once (the first notification
    cannot precede the first sample): it carries the NaN bit pattern
    0x7FC00000 in sound_dbfs and in each member fed by a subsystem whose
    begin() failed.  The zero-initialised frame is never notified. *)
Theorem notified_records_carry_nan_for_unavailable
        (hw : InitResults) (st : State) (ins : list LoopInput) :
  boot hw = Running st ->
  Forall (fun bs =>
            record_f32 offset_sound_dbfs bs = 2143289344
            /\ forall s, began s hw = false ->
                         Forall (fun off => record_f32 off bs = 2143289344)
                                (field_offsets s))
         (transmitted ins st).
Proof.
  intros E.
  destruct (boot_running hw st E) as (_ & Hw & _ & Hs & Hn).
  assert (H0 : wire_inv st).
  { split; [right; split; assumption|].
    rewrite Hw. split; [discriminate|constructor]. }
  pose proof (run_invariant wire_inv wire_inv_loop ins st H0)
    as (_ & _ & Hall).
  rewrite written_run, Hw in Hall. cbn [app tl] in Hall.
  eapply Forall_impl; [|exact Hall].
  intros bs [H1 H2]. split; [exact H1|].
  intros s Hb. apply H2.
  now rewrite (availability_flags_after_run hw st ins s E).
Qed.

(** Instance: the HTS221 failed to start; each of the three notified
    records carries NaN in temp_c, rh_pct and sound_dbfs. *)
Lemma notified_records_carry_nan_for_unavailable_witness :
  boot hts_failed = Running booted_without_hts
  /\ length (transmitted three_notifications booted_without_hts) = 3%nat
  /\ Forall (fun bs =>
               record_f32 offset_sound_dbfs bs = 2143289344
               /\ forall s, began s hts_failed = false ->
                            Forall (fun off => record_f32 off bs = 2143289344)
                                   (field_offsets s))
            (transmitted three_notifications booted_without_hts).
Proof.
  assert (E : boot hts_failed = Running booted_without_hts) by reflexivity.
  split; [exact E|]. split; [vm_compute; reflexivity|].
  exact (notified_records_carry_nan_for_unavailable
           hts_failed booted_without_hts three_notifications E).
Defined.

(** Instance: the initial value and three notifications, 36 bytes each. *)
Lemma written_records_have_struct_size_witness :
  boot all_ok = Running booted
  /\ length (written (run three_notifications booted)) = 4%nat
  /\ Forall (fun bs => length bs = 36%nat)
            (written (run three_notifications booted)).
Proof.
  assert (E : boot all_ok = Running booted) by reflexivity.
  split; [exact E|]. split; [vm_compute; reflexivity|].
  exact (written_records_have_struct_size all_ok booted three_notifications
           E).
Defined.
